(** * Product stocks, write side: MySQL and Redis kept in step

    A shallow embedding of [src/stocks/commands/write_stock.py].

    The Python functions talk to two stores, a MySQL database reached
    through SQLAlchemy sessions and a Redis cache reached through
    redis-py.  Both stores, the sessions that are open on the database
    and the sequence of calls made on either client are kept in one
    explicit [world]; every function of the module is a computation that
    takes a world and gives back a result or an exception together with
    the world it leaves behind. *)

From Stdlib Require Import ZArith String Ascii List Lia DecimalString DecimalZ.
From stdpp Require Import base option gmap strings list fin_maps.

Local Open Scope string_scope.
Local Open Scope Z_scope.
Local Open Scope list_scope.

(** ** Python values that cross the store boundary *)

(** [str(n)] for a Python [int]: the decimal numeral, with a leading
    minus sign for negative numbers.  This is also what redis-py sends
    for an [int] argument and what an f-string interpolates. *)
Definition py_str (z : Z) : string := NilZero.string_of_int (Z.to_int z).

(** [int(text)] on a field read back from Redis.  The numerals covered
    are an optional minus sign followed by decimal digits (leading
    zeros allowed); every other text is reported as [None], which the
    callers turn into [ValueError].  Python also accepts a plus sign,
    surrounding blanks and digit-group underscores; those spellings are
    never produced by [py_str] and are outside this model. *)
Definition py_int (s : string) : option Z := Z.of_int <$> NilZero.int_of_string s.

(** A Python [float], identified by its [repr] (the shortest decimal
    text that reads back as the same float, which is the text redis-py
    stores for it). *)
Record pyfloat := PyFloat { float_repr : string }.

(** The literal [0.0]. *)
Definition float_zero : pyfloat := PyFloat "0.0".

Inductive exn :=
| AttributeError (attr : string)     (* [item.attr] where the attribute is missing *)
| TypeError (msg : string)           (* [item['k']] on an object that is no mapping *)
| ValueError (text : string)         (* [int(text)] on a text that is no numeral *)
| IndexError                         (* [order_items[0]] on an empty list *)
| ProgrammingError (sql : string)    (* the database rejects the statement text *)
| IntegrityError (pid : Z)           (* INSERT of a product_id that has a row *)
| InvalidHandle                      (* a session value that was never created *)
| DriverError (msg : string).        (* any failure raised by a store client *)

Inductive result (A : Type) :=
| Ok (a : A)
| Raise (e : exn).
Arguments Ok {A} a.
Arguments Raise {A} e.

(** ** Order line items *)

(** The fields of an order line.  [product_id] and [quantity] are always
    there; [name], [sku] and [price] are optional.  A supplied price is
    kept as the float that [float(price)] evaluates to. *)
Record line_fields := LineFields {
  li_product_id : Z;
  li_quantity : Z;
  li_name : option string;
  li_sku : option string;
  li_price : option pyfloat
}.

(** A line item reaches the module either as an object with attributes
    or as a [dict]. *)
Inductive order_item :=
| ObjItem (f : line_fields)
| MapItem (f : line_fields).

Definition fields_of (item : order_item) : line_fields :=
  match item with ObjItem f | MapItem f => f end.

(** [hasattr(item, 'product_id')]: true of the object shape, false of a
    [dict], whose keys are no attributes. *)
Definition hasattr_product_id (item : order_item) : bool :=
  match item with ObjItem _ => true | MapItem _ => false end.

(** [item.attr] for a required attribute. *)
Definition attr_of {A} (attr : string) (get : line_fields -> A) (item : order_item) : result A :=
  match item with
  | ObjItem f => Ok (get f)
  | MapItem _ => Raise (AttributeError attr)
  end.

(** [item['key']] for a required key. *)
Definition subscript {A} (key : string) (get : line_fields -> A) (item : order_item) : result A :=
  match item with
  | MapItem f => Ok (get f)
  | ObjItem _ => Raise (TypeError "object is not subscriptable")
  end.

(** [getattr(item, attr, default)]: the attribute of an object when it
    is there, the default otherwise (a [dict] has no such attribute). *)
Definition getattr_default {A} (get : line_fields -> option A) (dflt : A)
    (item : order_item) : A :=
  match item with
  | ObjItem f => default dflt (get f)
  | MapItem _ => dflt
  end.

(** [item.get(key, default)], a method of [dict]. *)
Definition dict_get {A} (get : line_fields -> option A) (dflt : A)
    (item : order_item) : result A :=
  match item with
  | MapItem f => Ok (default dflt (get f))
  | ObjItem _ => Raise (AttributeError "get")
  end.

(** ** The two stores *)

(** A row of [products].  The price is kept as the float that
    [float(price)] gives for the stored amount, the only use the module
    makes of it. *)
Record product := Product {
  p_name : string;
  p_sku : string;
  p_price : pyfloat
}.

(** The [stocks] table maps a product_id (its key) to a quantity, the
    [products] table maps an id to name, sku and price.  Quantities are
    mathematical integers: the column type is declared outside the
    module under study. *)
Record database := Database {
  stocks : gmap Z Z;
  products : gmap Z product
}.

(** A SQLAlchemy session.  [txn] is the open transaction's view of the
    database ([None] when no transaction has begun: a session begins one
    on its first statement); [added] holds the objects given to
    [session.add] that no flush has written yet. *)
Record session := Session {
  txn : option database;
  added : list (Z * Z);
  closed : bool
}.

Inductive statement :=
| UpdateSet (pid qty : Z)
| UpdateDelta (operation : string) (pid qty : Z)
| SelectJoin.

(** One call on a store client. *)
Inductive call :=
| GetSession (h : nat)
| Execute (h : nat) (s : statement)
| Add (h : nat) (pid qty : Z)
| Flush (h : nat)
| Commit (h : nat)
| Rollback (h : nat)
| Close (h : nat)
| GetRedis
| ScanIter (pattern : string)
| HGet (key field : string)
| HSet (key field value : string)
| PipelineExecute (cmds : list (string * list (string * string))).

(** A call together with the exception it raised, if any. *)
Record event := Event {
  ev_call : call;
  ev_error : option exn
}.

(** Redis holds, under each key, a hash from field names to texts. *)
Record world := World {
  durable : database;
  sessions : list session;
  cache : gmap string (gmap string string);
  trace : list event
}.

Definition set_durable (d : database) (w : world) : world :=
  World d (sessions w) (cache w) (trace w).
Definition set_sessions (ss : list session) (w : world) : world :=
  World (durable w) ss (cache w) (trace w).
Definition set_cache (c : gmap string (gmap string string)) (w : world) : world :=
  World (durable w) (sessions w) c (trace w).
Definition log (e : event) (w : world) : world :=
  World (durable w) (sessions w) (cache w) (trace w ++ [e]).

(** What session [s] sees of the database in world [w]. *)
Definition session_view (w : world) (s : session) : database :=
  default (durable w) (txn s).

(** ** Computations on the world *)

(** A computation runs in a world and leaves a world, also when it
    raises: what was done before the exception stays done. *)
Definition M (A : Type) : Type := world -> result A * world.

Definition ret {A} (a : A) : M A := fun w => (Ok a, w).

Definition raise {A} (e : exn) : M A := fun w => (Raise e, w).

Definition bind {A B} (m : M A) (k : A -> M B) : M B := fun w =>
  match m w with
  | (Ok a, w') => k a w'
  | (Raise e, w') => (Raise e, w')
  end.

Notation "'let!' x ':=' m 'in' k" := (bind m (fun x => k))
  (at level 10, x pattern, m at level 100, k at level 200).

(** A step that touches no store: its result or exception, in the
    world as it is. *)
Definition lift {A} (r : result A) : M A := fun w => (r, w).

(** [try: body except Exception as e: handler] *)
Definition try_except {A} (body : M A) (handler : exn -> M A) : M A := fun w =>
  match body w with
  | (Ok a, w') => (Ok a, w')
  | (Raise e, w') => handler e w'
  end.

(** [try: body finally: cleanup].  The cleanup runs on every exit; the
    outcome of the body stands unless the cleanup itself raises. *)
Definition try_finally {A} (body : M A) (cleanup : M unit) : M A := fun w =>
  match body w with
  | (r, w') =>
      match cleanup w' with
      | (Ok _, w'') => (r, w'')
      | (Raise e, w'') => (Raise e, w'')
      end
  end.

(** [for x in xs: body x] *)
Fixpoint for_each {A} (xs : list A) (body : A -> M unit) : M unit :=
  match xs with
  | [] => ret tt
  | x :: rest => let! _ := body x in for_each rest body
  end.

(** [for x in xs: acc = body acc x], for a loop that fills a local
    buffer. *)
Fixpoint for_each_acc {A S} (xs : list A) (acc : S) (body : S -> A -> M S) : M S :=
  match xs with
  | [] => ret acc
  | x :: rest => let! acc' := body acc x in for_each_acc rest acc' body
  end.

(** ** Store clients *)

Section Clients.

(** The failures of the environment: [faults n] is the exception, if
    any, raised by the call that is logged at position [n] of the trace.
    Calls that only touch client-side state ([session.add], creating a
    session) and the two cleanup calls ([rollback], [close]) are taken
    to succeed and pay no attention to it. *)
Variable faults : nat -> option exn.

(** A call that may fail: it is logged with its outcome. *)
Definition extern (c : call) : M unit := fun w =>
  let err := faults (length (trace w)) in
  (match err with Some e => Raise e | None => Ok tt end, log (Event c err) w).

(** A call that cannot fail. *)
Definition local (c : call) : M unit := fun w =>
  (Ok tt, log (Event c None) w).

(** Runs [k] on the current state of session [h]. *)
Definition with_session {A} (h : nat) (k : session -> M A) : M A := fun w =>
  match sessions w !! h with
  | Some s => k s w
  | None => (Raise InvalidHandle, w)
  end.

Definition put_session (h : nat) (s : session) : M unit := fun w =>
  (Ok tt, set_sessions (<[h := s]> (sessions w)) w).

(** Modelled from the spec: [db.get_sqlalchemy_session], which is not
    part of the sources at hand.  It hands out a new transactional
    session on the durable store; creating it sends nothing to the
    database. *)
Definition get_sqlalchemy_session : M nat := fun w =>
  let h := length (sessions w) in
  (Ok h, log (Event (GetSession h) None)
           (set_sessions (sessions w ++ [Session None [] false]) w)).

(** The database's reading of the operator spliced into the UPDATE.
    The callers of this module pass ["+"] and ["-"]; any other text is
    taken as a statement the database rejects. *)
Definition sql_operator (operation : string) : option (Z -> Z -> Z) :=
  if String.eqb operation "+" then Some Z.add
  else if String.eqb operation "-" then Some Z.sub
  else None.

Definition set_stocks (st : gmap Z Z) (d : database) : database :=
  Database st (products d).

(** [session.execute] of an UPDATE: the statement joins the session's
    transaction (beginning one on the committed data if none is open)
    and gives back the number of rows it matched. *)
Definition run_update (h : nat) (stmt : statement) (pid : Z) (f : Z -> Z) : M Z :=
  let! _ := extern (Execute h stmt) in
  with_session h (fun s w =>
    let d := session_view w s in
    let rowcount := match stocks d !! pid with Some _ => 1 | None => 0 end in
    let d' := set_stocks (alter f pid (stocks d)) d in
    (Ok rowcount, set_sessions (<[h := Session (Some d') (added s) false]> (sessions w)) w)).

(** [UPDATE stocks SET quantity = :qty WHERE product_id = :pid] *)
Definition execute_update_set (h : nat) (pid qty : Z) : M Z :=
  run_update h (UpdateSet pid qty) pid (fun _ => qty).

(** [UPDATE stocks SET quantity = quantity {operation} :qty WHERE
    product_id = :pid] *)
Definition execute_update_delta (h : nat) (operation : string) (pid qty : Z) : M Z :=
  match sql_operator operation with
  | Some f => run_update h (UpdateDelta operation pid qty) pid (fun q => f q qty)
  | None =>
      let! _ := extern (Execute h (UpdateDelta operation pid qty)) in
      raise (ProgrammingError operation)
  end.

(** The rows of [SELECT p.id, p.name, p.sku, p.price, s.quantity FROM
    products p JOIN stocks s ON p.id = s.product_id]. *)
Definition join_rows (d : database) : list (Z * (product * Z)) :=
  map_to_list (map_zip (products d) (stocks d)).

Definition execute_select_join (h : nat) : M (list (Z * (product * Z))) :=
  let! _ := extern (Execute h SelectJoin) in
  with_session h (fun s w =>
    let d := session_view w s in
    (Ok (join_rows d), set_sessions (<[h := Session (Some d) (added s) false]> (sessions w)) w)).

(** [session.add(Stock(product_id=pid, quantity=qty))] *)
Definition session_add (h : nat) (pid qty : Z) : M unit :=
  let! _ := local (Add h pid qty) in
  with_session h (fun s =>
    put_session h (Session (txn s) (added s ++ [(pid, qty)]) (closed s))).

(** The INSERTs of the pending objects; a product_id that already has
    a row violates the key of the table. *)
Fixpoint insert_rows (rows : list (Z * Z)) (st : gmap Z Z) : result (gmap Z Z) :=
  match rows with
  | [] => Ok st
  | (pid, qty) :: rest =>
      match st !! pid with
      | Some _ => Raise (IntegrityError pid)
      | None => insert_rows rest (<[pid := qty]> st)
      end
  end.

Definition flush_pending (h : nat) : M unit :=
  with_session h (fun s w =>
    let d := session_view w s in
    match insert_rows (added s) (stocks d) with
    | Ok st => (Ok tt, set_sessions (<[h := Session (Some (set_stocks st d)) [] false]> (sessions w)) w)
    | Raise e => (Raise e, w)
    end).

(** [session.flush()] *)
Definition session_flush (h : nat) : M unit :=
  let! _ := extern (Flush h) in flush_pending h.

(** [session.commit()]: what is still pending is flushed, the
    transaction's view becomes the committed data and the transaction
    ends. *)
Definition session_commit (h : nat) : M unit :=
  let! _ := extern (Commit h) in
  let! _ := flush_pending h in
  with_session h (fun s w =>
    (Ok tt, set_durable (session_view w s)
              (set_sessions (<[h := Session None [] (closed s)]> (sessions w)) w))).

(** [session.rollback()]: the transaction and the pending objects are
    dropped. *)
Definition session_rollback (h : nat) : M unit :=
  let! _ := local (Rollback h) in
  with_session h (fun s => put_session h (Session None [] (closed s))).

(** [session.close()]: as a rollback, and the session is released. *)
Definition session_close (h : nat) : M unit :=
  let! _ := local (Close h) in
  with_session h (fun s => put_session h (Session None [] true)).

(** Modelled from the spec: [db.get_redis_conn], which is not part of
    the sources at hand.  It gives the client of the one cache store. *)
Definition get_redis_conn : M unit := extern GetRedis.

(** The key [f"stock:{product_id}"]. *)
Definition stock_key (product_id : Z) : string := "stock:" +:+ py_str product_id.

(** Whether a key matches the pattern [stock:*]. *)
Definition is_stock_key (key : string) : bool := String.prefix "stock:" key.

(** HSET on the store: the fields given are set, the other fields of
    the hash stay. *)
Definition hset_fields (key : string) (fields : list (string * string))
    (c : gmap string (gmap string string)) : gmap string (gmap string string) :=
  <[key := foldl (fun hash fv => <[fv.1 := fv.2]> hash) (default ∅ (c !! key)) fields]> c.

(** [list(r.scan_iter("stock:*"))] *)
Definition scan_stock_keys : M (list string) :=
  let! _ := extern (ScanIter "stock:*") in
  fun w => (Ok (filter (fun k => is_stock_key k = true) (map_to_list (cache w)).*1), w).

(** [r.hget(key, field)] *)
Definition redis_hget (key field : string) : M (option string) :=
  let! _ := extern (HGet key field) in
  fun w => (Ok (cache w !! key ≫= fun hash => hash !! field), w).

(** [r.hset(key, field, value)] *)
Definition redis_hset (key field value : string) : M unit :=
  let! _ := extern (HSet key field value) in
  fun w => (Ok tt, set_cache (hset_fields key [(field, value)] (cache w)) w).

(** [pipeline.execute()]: the buffered HSETs reach the store, in the
    order they were queued. *)
Definition pipeline_execute (cmds : list (string * list (string * string))) : M unit :=
  let! _ := extern (PipelineExecute cmds) in
  fun w => (Ok tt, set_cache (foldl (fun c cmd => hset_fields cmd.1 cmd.2 c) (cache w) cmds) w).

End Clients.

(** ** The module [stocks.commands.write_stock] *)

Section WriteStock.

Variable faults : nat -> option exn.

(** [set_stock_for_product(product_id, quantity)]: sets the stock
    quantity of a product in MySQL, then in Redis. *)
Definition set_stock_for_product (product_id quantity : Z) : M string :=
  let! session := get_sqlalchemy_session in
  try_finally
    (try_except
       (let! rowcount := execute_update_set faults session product_id quantity in
        let response_message := "rows updated: " +:+ py_str rowcount in
        let! response_message :=
          if (rowcount =? 0)%Z then
            let! _ := session_add session product_id quantity in
            let! _ := session_flush faults session in
            let! _ := session_commit faults session in
            ret ("rows added: " +:+ py_str product_id)
          else ret response_message in
        let! _ := get_redis_conn faults in
        let! _ := redis_hset faults (stock_key product_id) "quantity" (py_str quantity) in
        ret response_message)
       (fun e => let! _ := session_rollback session in raise e))
    (session_close session).

(** The reading of one line item in [update_stock_mysql]: the shape is
    asked of [order_items[0]], the fields are taken from [item]. *)
Definition mysql_item (order_items : list order_item) (item : order_item) : M (Z * Z) :=
  let! first := lift (match order_items !! 0%nat with
                      | Some first => Ok first
                      | None => Raise IndexError
                      end) in
  if hasattr_product_id first then
    let! pid := lift (attr_of "product_id" li_product_id item) in
    let! qty := lift (attr_of "quantity" li_quantity item) in
    ret (pid, qty)
  else
    let! pid := lift (subscript "product_id" li_product_id item) in
    let! qty := lift (subscript "quantity" li_quantity item) in
    ret (pid, qty).

(** [update_stock_mysql(session, order_items, operation)]: one UPDATE
    per line item, in the caller's session; nothing is committed
    here. *)
Definition update_stock_mysql (session : nat) (order_items : list order_item)
    (operation : string) : M unit :=
  try_except
    (for_each order_items (fun item =>
       let! (pid, qty) := mysql_item order_items item in
       let! _ := execute_update_delta faults session operation pid qty in
       ret tt))
    (fun e => raise e).

Definition check_out_items_from_stock (session : nat) (order_items : list order_item) : M unit :=
  update_stock_mysql session order_items "-".

Definition check_in_items_to_stock (session : nat) (order_items : list order_item) : M unit :=
  update_stock_mysql session order_items "+".

(** The mapping written for a product: the four fields in the order of
    the dict literal, [quantity] as an [int], [price] through
    [float(price)], which leaves a float as it is. *)
Definition entry_fields (quantity : Z) (name sku : string) (price : pyfloat)
    : list (string * string) :=
  [("quantity", py_str quantity); ("name", name); ("sku", sku); ("price", float_repr price)].

(** [int(current_stock) if current_stock else 0]: an absent field and
    an empty text count as zero. *)
Definition current_stock_of (reply : option string) : M Z :=
  match reply with
  | None => ret 0
  | Some "" => ret 0
  | Some text =>
      match py_int text with
      | Some z => ret z
      | None => raise (ValueError text)
      end
  end.

(** The body of the loop of [update_stock_redis]: reads the line item
    according to its own shape, reads the cached quantity from the
    store and queues the HSET on the pipeline. *)
Definition redis_item (operation : string)
    (pipeline : list (string * list (string * string))) (item : order_item)
    : M (list (string * list (string * string))) :=
  let! (product_id, quantity, name, sku, price) :=
    if hasattr_product_id item then
      let! product_id := lift (attr_of "product_id" li_product_id item) in
      let! quantity := lift (attr_of "quantity" li_quantity item) in
      let name := getattr_default li_name ("Product " +:+ py_str product_id) item in
      let sku := getattr_default li_sku ("SKU-" +:+ py_str product_id) item in
      let price := getattr_default li_price float_zero item in
      ret (product_id, quantity, name, sku, price)
    else
      let! product_id := lift (subscript "product_id" li_product_id item) in
      let! quantity := lift (subscript "quantity" li_quantity item) in
      let! name := lift (dict_get li_name ("Product " +:+ py_str product_id) item) in
      let! sku := lift (dict_get li_sku ("SKU-" +:+ py_str product_id) item) in
      let! price := lift (dict_get li_price float_zero item) in
      ret (product_id, quantity, name, sku, price) in
  let! current_stock := redis_hget faults (stock_key product_id) "quantity" in
  let! current_stock := current_stock_of current_stock in
  let new_quantity :=
    if String.eqb operation "+" then current_stock + quantity
    else current_stock - quantity in
  ret (pipeline ++ [(stock_key product_id, entry_fields new_quantity name sku price)]).

(** [_populate_redis_from_mysql(redis_conn)]: rebuilds the stock
    entries of Redis from the MySQL tables.  The messages it prints are
    not modelled. *)
Definition _populate_redis_from_mysql : M unit :=
  let! session := get_sqlalchemy_session in
  try_finally
    (try_except
       (let! stocks := execute_select_join faults session in
        if (length stocks =? 0)%nat then ret tt
        else
          let pipeline :=
            foldl (fun pipeline row =>
                     let '(product_id, (p, quantity)) := row in
                     pipeline ++ [(stock_key product_id,
                                   entry_fields quantity (p_name p) (p_sku p) (p_price p))])
                  [] stocks in
          let! _ := pipeline_execute faults pipeline in
          ret tt)
       (fun e => raise e))
    (session_close session).

(** [update_stock_redis(order_items, operation)]: updates the cached
    quantities of the products of an order. *)
Definition update_stock_redis (order_items : list order_item) (operation : string) : M unit :=
  match order_items with
  | [] => ret tt
  | _ :: _ =>
      let! _ := get_redis_conn faults in
      let! stock_keys := scan_stock_keys faults in
      match stock_keys with
      | _ :: _ =>
          let! pipeline := for_each_acc order_items [] (redis_item operation) in
          pipeline_execute faults pipeline
      | [] => _populate_redis_from_mysql
      end
  end.

End WriteStock.

(** The schedule in which no call fails. *)
Definition no_faults : nat -> option exn := fun _ => None.

(** ** Concrete inputs and observations *)

(** A line with a product and a quantity and none of the optional
    fields. *)
Definition line (pid qty : Z) : line_fields := LineFields pid qty None None None.

(** Two products in stock, 10 and 20 units; one open session; an empty
    cache. *)
Definition two_products : world :=
  World (Database {[ 1 := 10; 2 := 20 ]}
                  {[ 1 := Product "Some Item" "12345" (PyFloat "99.9");
                     2 := Product "Other Item" "67890" (PyFloat "5.0") ]})
        [Session None [] false] ∅ [].

(** The same with a warm cache that agrees with the database. *)
Definition two_products_warm : world :=
  set_cache {[ "stock:1" := {[ "quantity" := "10"; "name" := "Some Item";
                               "sku" := "12345"; "price" := "99.9" ]};
               "stock:2" := {[ "quantity" := "20"; "name" := "Other Item";
                               "sku" := "67890"; "price" := "5.0" ]} ]}
            two_products.

(** The stock of [pid] as session [h] sees it. *)
Definition stock_seen (w : world) (h : nat) (pid : Z) : option Z :=
  s ← sessions w !! h; stocks (session_view w s) !! pid.

(** The cached field [field] of product [pid]. *)
Definition cached (w : world) (pid : Z) (field : string) : option string :=
  hash ← cache w !! stock_key pid; hash !! field.

(** Whether every line item of a batch has the shape of the first. *)
Definition same_shape (order_items : list order_item) : bool :=
  match order_items with
  | [] => true
  | first :: _ =>
      forallb (fun item => Bool.eqb (hasattr_product_id item) (hasattr_product_id first))
              order_items
  end.

(** The calls made between world [w] and a later world [w']. *)
Definition new_events (w w' : world) : list event :=
  drop (length (trace w)) (trace w').

(** Calls on a database session, as opposed to calls on the cache. *)
Definition is_session_call (c : call) : bool :=
  match c with
  | GetSession _ | Execute _ _ | Add _ _ _ | Flush _ | Commit _ | Rollback _ | Close _ => true
  | GetRedis | ScanIter _ | HGet _ _ | HSet _ _ _ | PipelineExecute _ => false
  end.

(** ** The cache update as the specification words it *)

(** The quantity that counts as current for a product: the number in
    the [quantity] field of its hash, and 0 when the key or the field is
    absent or the field is empty.  [None] when the field holds a text
    that is no numeral. *)
Definition current_quantity (c : gmap string (gmap string string)) (pid : Z) : option Z :=
  match c !! stock_key pid ≫= (fun hash => hash !! "quantity") with
  | None => Some 0
  | Some EmptyString => Some 0
  | Some text => py_int text
  end.

(** The entry the specification asks for a line item, whatever its
    shape: the current quantity plus the line's quantity for ["+"],
    minus it otherwise, and name, sku and price with their defaults. *)
Definition expected_write (c : gmap string (gmap string string)) (operation : string)
    (item : order_item) : string * list (string * string) :=
  let f := fields_of item in
  let pid := li_product_id f in
  let current := default 0 (current_quantity c pid) in
  let new_quantity :=
    if String.eqb operation "+" then current + li_quantity f
    else current - li_quantity f in
  (stock_key pid,
   [("quantity", py_str new_quantity);
    ("name", default ("Product " +:+ py_str pid) (li_name f));
    ("sku", default ("SKU-" +:+ py_str pid) (li_sku f));
    ("price", float_repr (default float_zero (li_price f)))]).

(** The cache after a list of HSET commands. *)
Definition apply_writes (cmds : list (string * list (string * string)))
    (c : gmap string (gmap string string)) : gmap string (gmap string string) :=
  foldl (fun c cmd => hset_fields cmd.1 cmd.2 c) c cmds.

(** A cache with no key under [stock:*], and one with such a key. *)
Definition cold (c : gmap string (gmap string string)) : Prop :=
  forall key, is_stock_key key = true -> c !! key = None.

Definition warm (c : gmap string (gmap string string)) : Prop :=
  exists key, is_stock_key key = true /\ is_Some (c !! key).

(** The entry the synchronizer writes for a row of the join. *)
Definition row_write (row : Z * (product * Z)) : string * list (string * string) :=
  (stock_key row.1,
   entry_fields row.2.2 (p_name row.2.1) (p_sku row.2.1) (p_price row.2.1)).

(** ** An order operation as the callers run it *)

(** Modelled from the spec: the order-processing caller, which is not
    part of the sources at hand.  It adjusts the database in its
    session, commits, then updates the cache with the same operation and
    the same line items. *)
Definition order_operation (faults : nat -> option exn) (session : nat)
    (order_items : list order_item) (operation : string) : M unit :=
  let! _ := update_stock_mysql faults session order_items operation in
  let! _ := session_commit faults session in
  update_stock_redis faults order_items operation.

(** The stocks table after the UPDATEs of a batch, each applied in
    turn with the operator [f]. *)
Definition adjusted (f : Z -> Z -> Z) (order_items : list order_item) (st : gmap Z Z)
    : gmap Z Z :=
  foldl (fun st item =>
           alter (fun q => f q (li_quantity (fields_of item)))
                 (li_product_id (fields_of item)) st)
        st order_items.

(** A schedule in which the second call made on a client fails. *)
Definition second_call_fails : nat -> option exn :=
  fun n => if (n =? 1)%nat then Some (DriverError "connection lost") else None.

(** An order of two lines of different shapes; the second product is
    not in the cache yet and comes with a name. *)
Definition mixed_order : list order_item :=
  [ObjItem (line 1 2); MapItem (LineFields 3 5 (Some "New Item") None None)].

(** The world after a successful UPDATE through [f] on the row of
    [pid], seen from session [h] whose state was [s]. *)
Definition updated (h : nat) (s : session) (stmt : statement) (pid : Z) (f : Z -> Z)
    (w : world) : world :=
  let d := session_view w s in
  World (durable w)
        (<[h := Session (Some (set_stocks (alter f pid (stocks d)) d)) (added s) false]> (sessions w))
        (cache w)
        (trace w ++ [Event (Execute h stmt) None]).

(** ** Totals of an order *)

(** The units an order asks of a product: the sum of the quantities of
    the lines that name it. *)
Definition ordered (order_items : list order_item) (pid : Z) : Z :=
  foldr (fun item total =>
           if decide (li_product_id (fields_of item) = pid)
           then li_quantity (fields_of item) + total
           else total)
        0 order_items.

(** ** Frames *)

(** The part of the world that one UPDATE of session [h] can change:
    the state of that session and the trace. *)
Definition session_step (h : nat) (operation : string) (w w' : world) : Prop :=
  durable w' = durable w /\
  cache w' = cache w /\
  length (sessions w') = length (sessions w) /\
  (forall h', h' ≠ h -> sessions w' !! h' = sessions w !! h') /\
  exists evs, trace w' = trace w ++ evs /\
    forall ev, ev ∈ evs -> exists pid qty, ev_call ev = Execute h (UpdateDelta operation pid qty).

(** A step that leaves both stores and every session as they are; only
    the trace may grow. *)
Definition quiet (w w' : world) : Prop :=
  durable w' = durable w /\ sessions w' = sessions w /\ cache w' = cache w.

(** What a cache update may do to the world: the committed data and
    the sessions that exist stay, and the cache is either untouched or,
    on a normal return, the old cache with a list of HSETs applied. *)
Definition cache_outcome (w : world) (r : result unit) (w' : world) : Prop :=
  durable w' = durable w /\
  (forall h s, sessions w !! h = Some s -> sessions w' !! h = Some s) /\
  (cache w' = cache w \/
   (r = Ok tt /\ exists cmds, cache w' = apply_writes cmds (cache w))).

(** ** Scenarios *)

(** The committed data after a [set_stock_for_product] that no failure
    interrupts: a product without a row gets one, a product with a row
    keeps the quantity it had. *)
Definition after_set_stock (d : database) (pid qty : Z) : database :=
  match stocks d !! pid with
  | Some _ => d
  | None => set_stocks (<[pid := qty]> (stocks d)) d
  end.

(** Modelled from the spec: an order of some units of one product as
    the request handlers run it, which are not part of the sources at
    hand: a session is opened and the order operation runs in it. *)
Definition order_in_new_session (faults : nat -> option exn) (product_id units : Z)
    (operation : string) : M unit :=
  let! session := get_sqlalchemy_session in
  order_operation faults session [MapItem (line product_id units)] operation.

(** Modelled from the spec: the steps of [test_stock_flow] that reach
    this module.  The stock of a product is set, an order of some units
    of it is placed, and the order is deleted again. *)
Definition stock_flow (faults : nat -> option exn) (product_id quantity units : Z)
    : M unit :=
  let! _ := set_stock_for_product faults product_id quantity in
  let! _ := order_in_new_session faults product_id units "-" in
  order_in_new_session faults product_id units "+".

(** Both stores hold [z] for product [pid]. *)
Definition both_hold (w : world) (pid z : Z) : Prop :=
  stocks (durable w) !! pid = Some z /\ cached w pid "quantity" = Some (py_str z).


(** A schedule in which the seventh call fails: in
    [set_stock_for_product] on a product without a row, the HSET. *)
Definition seventh_call_fails : nat -> option exn :=
  fun n => if (n =? 6)%nat then Some (DriverError "cache down") else None.

(** * Properties *)

(** ** Texts and keys *)

Lemma py_int_str (z : Z) : py_int (py_str z) = Some z.
Proof.
  unfold py_int, py_str.
  rewrite NilZero.isi.
  - simpl. f_equal. apply DecimalZ.of_to.
  - destruct z; simpl; try discriminate.
    intros [= H]. revert H. apply DecimalPos.Unsigned.to_uint_nonnil.
  - destruct z; simpl; try discriminate.
    intros [= H]. revert H. apply DecimalPos.Unsigned.to_uint_nonnil.
Qed.

Lemma py_str_inj (a b : Z) : py_str a = py_str b -> a = b.
Proof.
  intros H. apply (f_equal py_int) in H.
  rewrite !py_int_str in H. congruence.
Qed.

Lemma stock_key_inj (a b : Z) : stock_key a = stock_key b -> a = b.
Proof.
  unfold stock_key. intros H. apply py_str_inj.
  cbv [String.append] in H. congruence.
Qed.

Lemma stock_key_matches (pid : Z) : is_stock_key (stock_key pid) = true.
Proof.
  unfold is_stock_key, stock_key. cbv [String.append].
  destruct (py_str pid); reflexivity.
Qed.

(** ** Empty orders *)

(** C9: on an empty [order_items], [update_stock_redis] returns at once;
    whatever the failure schedule, the world it leaves is the world it
    was given: no key read, no key written, no resynchronisation, no
    call made on any client. *)
Theorem update_stock_redis_empty_is_noop (faults : nat -> option exn)
    (operation : string) (w : world) :
  update_stock_redis faults [] operation w = (Ok tt, w).
Proof. reflexivity. Qed.

(** ** Shape detection in [update_stock_mysql] *)

(** An item whose shape differs from the shape of the first item of the
    batch is not read: the attribute access fails on a [dict], the
    subscript fails on an object, and the world is left as it was. *)
Lemma mysql_item_other_shape (first item : order_item) (rest : list order_item) (w : world) :
  hasattr_product_id item ≠ hasattr_product_id first ->
  exists e, mysql_item (first :: rest) item w = (Raise e, w).
Proof.
  intros Hne. unfold mysql_item, bind, lift. simpl.
  destruct first, item; simpl in *; try congruence; eauto.
Qed.

(** C3 (what the code does on a mixed batch): an object-shaped line for
    product 1 followed by a dict-shaped line for product 2.  The first
    line is applied, the second is read as if it were an object and
    raises [AttributeError]; product 2 keeps its 20 units.  With the two
    shapes swapped the second line raises [TypeError] instead. *)
Theorem update_stock_mysql_mixed_batch_raises :
  let obj_first := [ObjItem (line 1 2); MapItem (line 2 3)] in
  let map_first := [MapItem (line 1 2); ObjItem (line 2 3)] in
  let '(r1, w1) := update_stock_mysql no_faults 0 obj_first "-" two_products in
  let '(r2, w2) := update_stock_mysql no_faults 0 map_first "-" two_products in
  r1 = Raise (AttributeError "product_id") /\
  stock_seen w1 0 1 = Some 8 /\ stock_seen w1 0 2 = Some 20 /\
  r2 = Raise (TypeError "object is not subscriptable") /\
  stock_seen w2 0 1 = Some 8 /\ stock_seen w2 0 2 = Some 20.
Proof. vm_compute. repeat split; reflexivity. Qed.

(** ** Steps of the session client *)

Section Steps.

Variable faults : nat -> option exn.

Lemma extern_ok (c : call) (w : world) :
  faults (length (trace w)) = None ->
  extern faults c w = (Ok tt, log (Event c None) w).
Proof. intros H. unfold extern. by rewrite H. Qed.

Lemma extern_fail (c : call) (w : world) (e : exn) :
  faults (length (trace w)) = Some e ->
  extern faults c w = (Raise e, log (Event c (Some e)) w).
Proof. intros H. unfold extern. by rewrite H. Qed.

Lemma run_update_ok (h : nat) (s : session) (stmt : statement) (pid : Z) (f : Z -> Z) (w : world) :
  sessions w !! h = Some s ->
  faults (length (trace w)) = None ->
  run_update faults h stmt pid f w =
    (Ok (match stocks (session_view w s) !! pid with Some _ => 1 | None => 0 end),
     updated h s stmt pid f w).
Proof.
  intros Hs Hf. unfold run_update, bind. rewrite (extern_ok _ _ Hf).
  unfold with_session. destruct w as [d ss c t]. simpl in *. by rewrite Hs.
Qed.

Lemma run_update_fail (h : nat) (stmt : statement) (pid : Z) (f : Z -> Z) (w : world) (e : exn) :
  faults (length (trace w)) = Some e ->
  run_update faults h stmt pid f w = (Raise e, log (Event (Execute h stmt) (Some e)) w).
Proof.
  intros Hf. unfold run_update, bind. by rewrite (extern_fail _ _ _ Hf).
Qed.

Lemma execute_update_delta_ok (h : nat) (s : session) (operation : string) (f : Z -> Z -> Z)
    (pid qty : Z) (w : world) :
  sql_operator operation = Some f ->
  sessions w !! h = Some s ->
  faults (length (trace w)) = None ->
  execute_update_delta faults h operation pid qty w =
    (Ok (match stocks (session_view w s) !! pid with Some _ => 1 | None => 0 end),
     updated h s (UpdateDelta operation pid qty) pid (fun q => f q qty) w).
Proof.
  intros Hop Hs Hf. unfold execute_update_delta. rewrite Hop.
  by apply run_update_ok.
Qed.

Lemma execute_update_delta_fail (h : nat) (operation : string) (f : Z -> Z -> Z)
    (pid qty : Z) (w : world) (e : exn) :
  sql_operator operation = Some f ->
  faults (length (trace w)) = Some e ->
  execute_update_delta faults h operation pid qty w =
    (Raise e, log (Event (Execute h (UpdateDelta operation pid qty)) (Some e)) w).
Proof.
  intros Hop Hf. unfold execute_update_delta. rewrite Hop.
  by apply run_update_fail.
Qed.

End Steps.

Lemma updated_session (h : nat) (s : session) stmt pid f (w : world) :
  sessions w !! h = Some s ->
  sessions (updated h s stmt pid f w) !! h =
    Some (Session (Some (set_stocks (alter f pid (stocks (session_view w s))) (session_view w s)))
                  (added s) false).
Proof.
  intros Hs. unfold updated. simpl.
  apply list_lookup_insert_eq. by eapply lookup_lt_Some.
Qed.

Lemma set_stocks_same (d : database) : set_stocks (stocks d) d = d.
Proof. by destruct d. Qed.

(** ** Check-out followed by check-in *)

(** C2: for a product with a StockRecord of quantity [Q] and a line item
    [(pid, D)] of either shape, [check_out_items_from_stock] brings the
    quantity the session sees to [Q - D], and [check_in_items_to_stock]
    with the same line item brings it back to [Q]; the whole stocks
    table the session sees is then the one it saw at the start. *)
Theorem check_out_then_check_in_restores (w : world) (h : nat) (s : session)
    (item : order_item) (Q : Z) :
  sessions w !! h = Some s ->
  stocks (session_view w s) !! li_product_id (fields_of item) = Some Q ->
  let pid := li_product_id (fields_of item) in
  let D := li_quantity (fields_of item) in
  let '(r1, w1) := check_out_items_from_stock no_faults h [item] w in
  let '(r2, w2) := check_in_items_to_stock no_faults h [item] w1 in
  r1 = Ok tt /\ stock_seen w1 h pid = Some (Q - D) /\
  r2 = Ok tt /\ stock_seen w2 h pid = Some Q /\
  exists s2, sessions w2 !! h = Some s2 /\
             stocks (session_view w2 s2) = stocks (session_view w s).
Proof.
  intros Hs HQ pid D. fold pid in HQ.
  unfold check_out_items_from_stock, check_in_items_to_stock, update_stock_mysql.
  assert (Hread : forall w', mysql_item [item] item w' = (Ok (pid, D), w')).
  { intros w'. unfold mysql_item, bind, lift. simpl. by destruct item. }
  unfold try_except, for_each, bind. rewrite Hread.
  rewrite (execute_update_delta_ok no_faults h s "-" Z.sub) by done.
  simpl fst; simpl snd. cbv beta iota. unfold ret at 1 2.
  set (w1 := updated h s _ pid _ w).
  pose proof (updated_session h s (UpdateDelta "-" pid D) pid (fun q => q - D) w Hs) as Hs1.
  fold w1 in Hs1.
  rewrite Hread.
  rewrite (execute_update_delta_ok no_faults h _ "+" Z.add _ _ _ eq_refl Hs1 eq_refl).
  unfold ret.
  set (w2 := updated h _ _ pid _ w1).
  pose proof (updated_session h _ (UpdateDelta "+" pid D) pid (fun q => q + D) w1 Hs1) as Hs2.
  fold w2 in Hs2.
  assert (Hv1 : stocks (session_view w1 (Session (Some (set_stocks (alter (fun q => q - D) pid (stocks (session_view w s))) (session_view w s))) (added s) false)) = alter (fun q => q - D) pid (stocks (session_view w s))) by done.
  split; [done|]. split.
  { unfold stock_seen. rewrite Hs1. simpl. rewrite lookup_alter_eq, HQ. done. }
  split; [done|].
  assert (Hback : alter (fun q => q + D) pid (alter (fun q => q - D) pid (stocks (session_view w s)))
                  = stocks (session_view w s)).
  { rewrite alter_alter_eq. apply alter_id. intros x _. simpl. lia. }
  split.
  { unfold stock_seen. rewrite Hs2. simpl. rewrite Hback. exact HQ. }
  eexists. split; [exact Hs2|]. simpl. exact Hback.
Qed.

(** ** Line items of products without a StockRecord *)

Lemma mysql_item_world (order_items : list order_item) (item : order_item) (w : world) :
  snd (mysql_item order_items item w) = w.
Proof.
  unfold mysql_item, bind, lift.
  destruct (order_items !! 0%nat) as [first|]; simpl; [|done].
  destruct (hasattr_product_id first), item; done.
Qed.

Lemma mysql_item_same_shape (order_items : list order_item) (first item : order_item) (w : world) :
  order_items !! 0%nat = Some first ->
  hasattr_product_id item = hasattr_product_id first ->
  mysql_item order_items item w =
    (Ok (li_product_id (fields_of item), li_quantity (fields_of item)), w).
Proof.
  intros H0 Hshape. unfold mysql_item, bind, lift. rewrite H0. simpl.
  destruct first, item; simpl in *; try discriminate; reflexivity.
Qed.

(** The loop of [update_stock_mysql] over a tail [l] of the batch
    [order_items]. *)
Lemma update_loop_rows (faults : nat -> option exn) (h : nat) (operation : string)
    (f : Z -> Z -> Z) (order_items l : list order_item) :
  sql_operator operation = Some f ->
  forall (w : world) (s : session),
  sessions w !! h = Some s ->
  let '(r, w') :=
    for_each l (fun item =>
      let! (pid, qty) := mysql_item order_items item in
      let! _ := execute_update_delta faults h operation pid qty in
      ret tt) w in
  durable w' = durable w /\
  exists s', sessions w' !! h = Some s' /\
    (forall pid, stocks (session_view w s) !! pid = None ->
                 stocks (session_view w' s') !! pid = None) /\
    ((forall item, item ∈ l ->
        stocks (session_view w s) !! li_product_id (fields_of item) = None) ->
     stocks (session_view w' s') = stocks (session_view w s)) /\
    ((forall n, faults n = None) ->
     (exists first, order_items !! 0%nat = Some first /\
        forall item, item ∈ l -> hasattr_product_id item = hasattr_product_id first) ->
     r = Ok tt).
Proof.
  intros Hop. induction l as [|item l IH]; intros w s Hs.
  - simpl. split; [done|]. exists s. repeat split; auto.
  - cbn [for_each]. unfold bind at 1. unfold bind at 1.
    pose proof (mysql_item_world order_items item w) as Hw.
    destruct (mysql_item order_items item w) as [[[pid qty]|e] w0] eqn:Hread;
      simpl in Hw; subst w0.
    + destruct (faults (length (trace w))) as [e|] eqn:Hf.
      * unfold bind. rewrite (execute_update_delta_fail faults h operation f pid qty w e Hop Hf).
        split; [done|]. exists s. repeat split; auto.
        -- intros Hnone. by rewrite Hnone in Hf.
      * unfold bind at 1.
        rewrite (execute_update_delta_ok faults h s operation f pid qty w Hop Hs Hf).
        unfold ret at 1.
        pose proof (updated_session h s (UpdateDelta operation pid qty) pid
                      (fun q => f q qty) w Hs) as Hs1.
        specialize (IH _ _ Hs1).
        match type of IH with
        | (let '(_, _) := ?t in _) => destruct t as [r w'] eqn:Hloop
        end.
        destruct IH as (Hd & s' & Hs' & Hnew & Hsame & Hok).
        split; [done|]. exists s'. split; [done|].
        change (session_view (updated h s (UpdateDelta operation pid qty) pid
                                (fun q => f q qty) w)
                  (Session (Some (set_stocks (alter (fun q => f q qty) pid
                                                (stocks (session_view w s)))
                                    (session_view w s))) (added s) false))
          with (set_stocks (alter (fun q => f q qty) pid (stocks (session_view w s)))
                  (session_view w s)) in *.
        assert (Hst : forall st d, stocks (set_stocks st d) = st) by done.
        rewrite !Hst in *.
        repeat split.
        -- intros p Hp. apply Hnew. by rewrite lookup_alter_None.
        -- intros Hall.
           assert (Hitem : mysql_item order_items item w = (Ok (pid, qty), w) ->
                           pid = li_product_id (fields_of item)).
           { unfold mysql_item, bind, lift.
             destruct (order_items !! 0%nat) as [first|]; simpl; [|done].
             destruct (hasattr_product_id first), item; cbv; congruence. }
           specialize (Hitem Hread). subst pid.
           assert (Hmiss : stocks (session_view w s) !! li_product_id (fields_of item) = None)
             by (apply Hall; left).
           assert (Hid : alter (fun q => f q qty) (li_product_id (fields_of item))
                           (stocks (session_view w s)) = stocks (session_view w s)).
           { apply alter_id. intros x Hx. congruence. }
           rewrite Hid in Hsame. apply Hsame.
           intros it Hit. apply Hall. by right.
        -- intros Hnf (first & H0 & Hshape). apply Hok; [done|].
           exists first. split; [done|]. intros it Hit. apply Hshape. by right.
    + split; [done|]. exists s. repeat split; auto.
      * intros Hnf (first & H0 & Hshape).
        rewrite (mysql_item_same_shape order_items first item w H0) in Hread
          by (apply Hshape; left).
        discriminate.
Qed.

Lemma sql_operator_plus_minus (operation : string) :
  operation = "+" \/ operation = "-" -> exists f, sql_operator operation = Some f.
Proof. intros [->| ->]; eauto. Qed.

Lemma same_shape_first (order_items : list order_item) :
  same_shape order_items = true ->
  order_items = [] \/
  exists first, order_items !! 0%nat = Some first /\
    forall item, item ∈ order_items -> hasattr_product_id item = hasattr_product_id first.
Proof.
  destruct order_items as [|first rest]; [by left|]. intros H. right.
  exists first. split; [done|]. intros item Hin.
  unfold same_shape in H. rewrite forallb_forall in H.
  apply list_elem_of_In in Hin. specialize (H _ Hin).
  by apply Bool.eqb_prop in H.
Qed.

(** C6: for a product that has no StockRecord (as the caller's session
    sees the table), [update_stock_mysql] with ["+"] or ["-"] never
    inserts a row: whatever the batch and whatever fails on the way, the
    product still has no row afterwards and the committed data is
    untouched; the UPDATE for such a product matches zero rows and raises
    nothing; a batch of one shape whose calls all go through returns
    normally, and when none of its products has a row the stocks table
    is left exactly as it was. *)
Theorem update_stock_mysql_missing_row (faults : nat -> option exn) (w : world) (h : nat)
    (s : session) (order_items : list order_item) (operation : string) (pid : Z) :
  sessions w !! h = Some s ->
  stocks (session_view w s) !! pid = None ->
  operation = "+" \/ operation = "-" ->
  let '(r, w') := update_stock_mysql faults h order_items operation w in
  durable w' = durable w /\
  (forall qty, faults (length (trace w)) = None ->
     fst (execute_update_delta faults h operation pid qty w) = Ok 0) /\
  exists s', sessions w' !! h = Some s' /\
    stocks (session_view w' s') !! pid = None /\
    ((forall n, faults n = None) -> same_shape order_items = true -> r = Ok tt) /\
    ((forall item, item ∈ order_items ->
        stocks (session_view w s) !! li_product_id (fields_of item) = None) ->
     stocks (session_view w' s') = stocks (session_view w s)).
Proof.
  intros Hs Hmiss Hop.
  destruct (sql_operator_plus_minus operation Hop) as [f Hf].
  pose proof (update_loop_rows faults h operation f order_items order_items Hf w s Hs) as Hloop.
  unfold update_stock_mysql, try_except.
  match type of Hloop with
  | (let '(_, _) := ?t in _) => destruct t as [r w'] eqn:Hrun
  end.
  destruct Hloop as (Hd & s' & Hs' & Hnew & Hsame & Hok).
  assert (Hgoal :
    durable w' = durable w /\
    (forall qty, faults (length (trace w)) = None ->
       fst (execute_update_delta faults h operation pid qty w) = Ok 0) /\
    exists s', sessions w' !! h = Some s' /\
      stocks (session_view w' s') !! pid = None /\
      ((forall n, faults n = None) -> same_shape order_items = true -> r = Ok tt) /\
      ((forall item, item ∈ order_items ->
          stocks (session_view w s) !! li_product_id (fields_of item) = None) ->
       stocks (session_view w' s') = stocks (session_view w s))).
  { split; [done|]. split.
    - intros qty Hnf.
      rewrite (execute_update_delta_ok faults h s operation f pid qty w Hf Hs Hnf).
      simpl. by rewrite Hmiss.
    - exists s'. repeat split; auto.
      intros Hnf Hshape. destruct (same_shape_first _ Hshape) as [->|Hfirst].
      + simpl in Hrun. by injection Hrun as <- _.
      + by apply Hok. }
  destruct r; exact Hgoal.
Qed.

(** ** Running [set_stock_for_product] *)

Lemma lookup_snoc {A} (l : list A) (x : A) : (l ++ [x]) !! length l = Some x.
Proof. by apply list_lookup_middle. Qed.

Lemma insert_snoc {A} (l : list A) (x y : A) : <[length l := y]> (l ++ [x]) = l ++ [y].
Proof.
  rewrite insert_app_r_alt by lia. by rewrite Nat.sub_diag.
Qed.

Ltac unfold_program :=
  cbv [set_stock_for_product get_sqlalchemy_session try_finally try_except bind
    execute_update_set run_update with_session session_add session_flush
    session_commit session_rollback session_close flush_pending local put_session
    get_redis_conn redis_hset ret raise log set_sessions set_cache set_durable session_view
    durable sessions cache trace fst snd txn added closed default id Z.eqb insert_rows].

(** Decides the outcome of the next call on a client. *)
Ltac run_extern :=
  match goal with
  | |- context [extern ?fl ?c ?w] =>
      let n := eval cbv [trace] in (length (trace w)) in
      let e := fresh "e" in
      let Hf := fresh "Hf" in
      destruct (fl n) as [e|] eqn:Hf;
      [ try (exfalso; unfold no_faults in Hf; discriminate Hf);
        try (exfalso;
             match goal with
             | Hnf : forall k, fl k = None |- _ => rewrite Hnf in Hf; discriminate Hf
             end);
        rewrite (extern_fail fl c w e Hf)
      | rewrite (extern_ok fl c w Hf) ]
  end.

Lemma stocks_set_stocks (st : gmap Z Z) (d : database) : stocks (set_stocks st d) = st.
Proof. done. Qed.

Lemma alter_missing (f : Z -> Z) (pid : Z) (st : gmap Z Z) :
  st !! pid = None -> alter f pid st = st.
Proof. intros H. apply alter_id. intros x Hx. congruence. Qed.

Ltac use_row :=
  match goal with
  | H : stocks ?d !! ?p = _ |- context [stocks ?d !! ?p] => rewrite H
  | H : stocks ?d !! ?p = None |- context [alter _ ?p (stocks ?d)] =>
      rewrite (alter_missing _ _ _ H)
  end.

Ltac run :=
  repeat (unfold_program; rewrite ?lookup_snoc, ?insert_snoc, ?stocks_set_stocks, ?app_nil_l;
          repeat use_row; try run_extern).

(** Brings [new_events] of a trace that was extended step by step to
    the list of the added events. *)
Ltac new_events_list :=
  cbv [new_events trace]; rewrite <- ?app_assoc; rewrite ?drop_app_length; simpl app.

(** Splits a membership in an explicit list into its cases. *)
Ltac in_cases H :=
  repeat (apply elem_of_cons in H as [H|H]); [..|by apply elem_of_nil in H].

(** C5: in every run of [set_stock_for_product] the session it opened
    is closed by the last call it makes and holds no transaction
    afterwards.  When a call on that session raises (the UPDATE, the
    flush of the INSERT or the commit), the exception the caller gets is
    the one that call raised, the calls that follow it are the rollback
    and the close and nothing else, no call is made on the cache, and
    the cache and the committed data are as they were. *)
Theorem set_stock_for_product_failure (faults : nat -> option exn) (w : world)
    (pid qty : Z) :
  let h := length (sessions w) in
  let '(r, w') := set_stock_for_product faults pid qty w in
  let evs := new_events w w' in
  trace w' = trace w ++ evs /\
  last evs = Some (Event (Close h) None) /\
  sessions w' = sessions w ++ [Session None [] true] /\
  forall c e, Event c (Some e) ∈ evs -> is_session_call c = true ->
    r = Raise e /\
    cache w' = cache w /\
    durable w' = durable w /\
    (forall ev, ev ∈ evs -> is_session_call (ev_call ev) = true) /\
    exists pre,
      evs = pre ++ [Event c (Some e); Event (Rollback h) None; Event (Close h) None].
Proof.
  destruct w as [d ss c t]. intros h. subst h.
  destruct (stocks d !! pid) as [q|] eqn:Hrow;
    run; new_events_list;
    (split; [by rewrite <- ?app_assoc|]); (split; [done|]); (split; [done|]);
    intros c0 e0 Hin Hsess; in_cases Hin; try discriminate Hin;
    injection Hin as -> ->; try discriminate Hsess;
    (split; [done|split; [done|split; [done|split;
      [intros ev Hev; in_cases Hev; by subst ev
      |first [by eexists [_] | by eexists [_; _; _] | by eexists [_; _; _; _]]]]]]).
Qed.

(** C10: [set_stock_for_product] commits only on the insert path.  A
    commit appears among its calls only when the product had no
    StockRecord; when the product has one, no commit is ever issued, the
    last call is the close and the committed data is what it was before
    the call, so the UPDATE stays uncommitted; with no failing call the
    calls on that path are exactly: open the session, UPDATE, connect to
    the cache, HSET, close; and on the insert path with no failing call
    the commit is issued and the new row is committed. *)
Theorem set_stock_for_product_commits_only_on_insert (faults : nat -> option exn)
    (w : world) (pid qty : Z) :
  let h := length (sessions w) in
  let '(r, w') := set_stock_for_product faults pid qty w in
  let evs := new_events w w' in
  ((exists err, Event (Commit h) err ∈ evs) -> stocks (durable w) !! pid = None) /\
  (is_Some (stocks (durable w) !! pid) ->
     (forall ev, ev ∈ evs -> ev_call ev ≠ Commit h) /\
     durable w' = durable w /\
     last evs = Some (Event (Close h) None) /\
     ((forall n, faults n = None) ->
        r = Ok "rows updated: 1" /\
        evs = [Event (GetSession h) None;
               Event (Execute h (UpdateSet pid qty)) None;
               Event GetRedis None;
               Event (HSet (stock_key pid) "quantity" (py_str qty)) None;
               Event (Close h) None])) /\
  (stocks (durable w) !! pid = None -> (forall n, faults n = None) ->
     Event (Commit h) None ∈ evs /\
     stocks (durable w') = <[pid := qty]> (stocks (durable w))).
Proof.
  destruct w as [d ss c t]. intros h. subst h. cbn [durable sessions].
  destruct (stocks d !! pid) as [q|] eqn:Hrow.
  - run; new_events_list;
      (split; [intros [err Hin]; in_cases Hin; discriminate Hin|]);
      (split; [|intros Hnone; discriminate Hnone]);
      intros _;
      (split; [intros ev Hev; in_cases Hev; by subst ev|]);
      (split; [done|]); (split; [done|]);
      intros Hnf; try (rewrite Hnf in *; discriminate); done.
  - run; new_events_list;
      (split; [done|]);
      (split; [intros [? Hsome]; discriminate Hsome|]);
      intros _ Hnf; try (rewrite Hnf in *; discriminate);
      (split; [set_solver|done]).
Qed.

(** ** What [set_stock_for_product] does when no call fails *)

(** On either path the quantity text is written into the [quantity]
    field of the product's hash and nothing else of the cache changes;
    on the insert path the new row is committed and the message names
    the product; on the update path the message counts one row. *)
Lemma set_stock_for_product_no_faults (w : world) (pid qty : Z) :
  let '(r, w') := set_stock_for_product no_faults pid qty w in
  cache w' = hset_fields (stock_key pid) [("quantity", py_str qty)] (cache w) /\
  products (durable w') = products (durable w) /\
  match stocks (durable w) !! pid with
  | Some _ => r = Ok "rows updated: 1" /\ durable w' = durable w
  | None => r = Ok ("rows added: " +:+ py_str pid) /\
            stocks (durable w') = <[pid := qty]> (stocks (durable w))
  end.
Proof.
  destruct w as [d ss c t]. cbn [durable cache].
  destruct (stocks d !! pid) as [q|] eqn:Hrow; run; done.
Qed.

Lemma hset_fields_one_lookup (key field value : string)
    (c : gmap string (gmap string string)) (key' field' : string) :
  (hset_fields key [(field, value)] c !! key' ≫= fun hash => hash !! field') =
  if decide (key = key' /\ field = field') then Some value
  else c !! key' ≫= fun hash => hash !! field'.
Proof.
  unfold hset_fields. simpl.
  destruct (decide (key = key')) as [<-|Hk].
  - rewrite lookup_insert_eq. simpl.
    destruct (decide (field = field')) as [<-|Hf].
    + rewrite lookup_insert_eq. by rewrite decide_True.
    + rewrite lookup_insert_ne by done. rewrite decide_False by (intros [? ?]; done).
      destruct (c !! key); simpl; [done|]. by rewrite lookup_empty.
  - rewrite lookup_insert_ne by done. by rewrite decide_False by (intros [? ?]; done).
Qed.

(** C4 (what the code does when the product has a StockRecord):
    product 1 has 10 units in the database and in the cache.  Setting
    its stock to 7 reports one updated row and writes 7 to the cache,
    leaving name, sku and price there as they were, but the UPDATE is
    never committed: the session is closed with the transaction dropped
    and the database still holds 10. *)
Theorem set_stock_for_product_existing_row_not_persisted :
  let '(r, w') := set_stock_for_product no_faults 1 7 two_products_warm in
  r = Ok "rows updated: 1" /\
  cached w' 1 "quantity" = Some "7" /\
  cached w' 1 "name" = Some "Some Item" /\
  cached w' 1 "sku" = Some "12345" /\
  cached w' 1 "price" = Some "99.9" /\
  stocks (durable w') !! 1 = Some 10 /\
  sessions w' !! 1%nat = Some (Session None [] true) /\
  forall ev, ev ∈ new_events two_products_warm w' -> ev_call ev ≠ Commit 1.
Proof.
  vm_compute. repeat (split; [reflexivity|]).
  intros ev Hev. in_cases Hev; by subst ev.
Qed.

(** ** The cache client *)

Lemma scan_cold (c : gmap string (gmap string string)) :
  cold c -> filter (fun k => is_stock_key k = true) (map_to_list c).*1 = [].
Proof.
  intros Hcold.
  destruct (filter _ _) as [|k l] eqn:Hfilter; [done|].
  assert (Hin : k ∈ filter (fun k => is_stock_key k = true) (map_to_list c).*1)
    by (rewrite Hfilter; left).
  apply list_elem_of_filter in Hin as [Hk Hin].
  apply list_elem_of_fmap in Hin as ([k' v] & -> & Hin).
  apply elem_of_map_to_list in Hin. simpl in Hk.
  rewrite (Hcold _ Hk) in Hin. discriminate.
Qed.

Lemma scan_warm (c : gmap string (gmap string string)) :
  warm c -> exists k l, filter (fun k => is_stock_key k = true) (map_to_list c).*1 = k :: l.
Proof.
  intros (key & Hkey & [hash Hhash]).
  destruct (filter _ _) as [|k l] eqn:Hfilter; [|eauto].
  exfalso. eapply (filter_nil_not_elem_of _ _ key Hfilter); [exact Hkey|].
  apply list_elem_of_fmap. exists (key, hash). split; [done|].
  by apply elem_of_map_to_list.
Qed.

Lemma hset_fields_lookup_eq (key : string) (fields : list (string * string))
    (c : gmap string (gmap string string)) :
  hset_fields key fields c !! key =
    Some (foldl (fun hash fv => <[fv.1 := fv.2]> hash) (default ∅ (c !! key)) fields).
Proof. unfold hset_fields. apply lookup_insert_eq. Qed.

Lemma hset_fields_lookup_ne (key key' : string) (fields : list (string * string))
    (c : gmap string (gmap string string)) :
  key ≠ key' -> hset_fields key fields c !! key' = c !! key'.
Proof. intros Hne. unfold hset_fields. by apply lookup_insert_ne. Qed.

Lemma apply_writes_app (pre post : list (string * list (string * string)))
    (c : gmap string (gmap string string)) :
  apply_writes (pre ++ post) c = apply_writes post (apply_writes pre c).
Proof. unfold apply_writes. apply foldl_app. Qed.

(** Commands on other keys leave a key as it is. *)
Lemma apply_writes_other (cmds : list (string * list (string * string))) (key : string) :
  forall c, key ∉ cmds.*1 -> apply_writes cmds c !! key = c !! key.
Proof.
  induction cmds as [|[k fields] cmds IH]; intros c Hnot; [done|].
  simpl in Hnot. apply not_elem_of_cons in Hnot as [Hne Hnot].
  unfold apply_writes. simpl. fold (apply_writes cmds (hset_fields k fields c)).
  rewrite IH by done. by apply hset_fields_lookup_ne.
Qed.

(** The last command on a key decides its four fields. *)
Lemma apply_writes_last (pre post : list (string * list (string * string)))
    (key : string) (quantity : Z) (name sku : string) (price : pyfloat)
    (c : gmap string (gmap string string)) :
  key ∉ post.*1 ->
  exists hash,
    apply_writes (pre ++ (key, entry_fields quantity name sku price) :: post) c !! key
      = Some hash /\
    hash !! "quantity" = Some (py_str quantity) /\
    hash !! "name" = Some name /\
    hash !! "sku" = Some sku /\
    hash !! "price" = Some (float_repr price) /\
    forall field, field ∉ ["quantity"; "name"; "sku"; "price"] ->
      hash !! field = (apply_writes pre c !! key) ≫= (fun old => old !! field).
Proof.
  intros Hpost. rewrite apply_writes_app.
  change (apply_writes ((key, entry_fields quantity name sku price) :: post)
            (apply_writes pre c))
    with (apply_writes post
            (hset_fields key (entry_fields quantity name sku price) (apply_writes pre c))).
  rewrite apply_writes_other by done.
  rewrite hset_fields_lookup_eq. eexists. split; [reflexivity|].
  unfold entry_fields. simpl.
  repeat split.
  - rewrite !lookup_insert_ne by done. by rewrite lookup_insert_eq.
  - rewrite !lookup_insert_ne by done. by rewrite lookup_insert_eq.
  - rewrite !lookup_insert_ne by done. by rewrite lookup_insert_eq.
  - by rewrite lookup_insert_eq.
  - intros field Hfield.
    rewrite !not_elem_of_cons in Hfield. destruct Hfield as (H1 & H2 & H3 & H4 & _).
    rewrite !lookup_insert_ne by done.
    destruct (apply_writes pre c !! key); simpl; [done|]. by rewrite lookup_empty.
Qed.

Lemma pipeline_execute_no_faults (cmds : list (string * list (string * string))) (w : world) :
  pipeline_execute no_faults cmds w =
    (Ok tt, World (durable w) (sessions w) (apply_writes cmds (cache w))
                  (trace w ++ [Event (PipelineExecute cmds) None])).
Proof. reflexivity. Qed.

(** ** The loop of [update_stock_redis] *)

Lemma current_stock_of_reads (c : gmap string (gmap string string)) (pid cur : Z) (w : world) :
  current_quantity c pid = Some cur ->
  current_stock_of (c !! stock_key pid ≫= fun hash => hash !! "quantity") w = (Ok cur, w).
Proof.
  unfold current_quantity, current_stock_of.
  destruct (c !! stock_key pid ≫= _) as [[|a text]|]; intros H.
  - by injection H as <-.
  - by rewrite H.
  - by injection H as <-.
Qed.

(** One turn of the loop when the cached quantity can be read: the
    command queued is the expected one, the store is only read. *)
Lemma redis_item_ok (operation : string) (pipeline : list (string * list (string * string)))
    (item : order_item) (w : world) :
  is_Some (current_quantity (cache w) (li_product_id (fields_of item))) ->
  redis_item no_faults operation pipeline item w =
    (Ok (pipeline ++ [expected_write (cache w) operation item]),
     log (Event (HGet (stock_key (li_product_id (fields_of item))) "quantity") None) w).
Proof.
  intros [cur Hcur]. unfold expected_write. rewrite Hcur. simpl default.
  destruct item as [f|f]; simpl fields_of in *.
  - unfold redis_item, bind at 1. simpl hasattr_product_id. cbv iota.
    cbv [bind lift ret attr_of getattr_default redis_hget extern no_faults hasattr_product_id].
    cbn [cache log].
    rewrite (current_stock_of_reads _ _ _ _ Hcur). reflexivity.
  - unfold redis_item, bind at 1. simpl hasattr_product_id. cbv iota.
    cbv [bind lift ret subscript dict_get redis_hget extern no_faults hasattr_product_id].
    cbn [cache log].
    rewrite (current_stock_of_reads _ _ _ _ Hcur). reflexivity.
Qed.

Lemma redis_loop_ok (operation : string) (order_items : list order_item) :
  forall (pipeline : list (string * list (string * string))) (w : world),
  (forall item, item ∈ order_items ->
     is_Some (current_quantity (cache w) (li_product_id (fields_of item)))) ->
  exists evs,
    for_each_acc order_items pipeline (redis_item no_faults operation) w =
      (Ok (pipeline ++ map (expected_write (cache w) operation) order_items),
       World (durable w) (sessions w) (cache w) (trace w ++ evs)) /\
    forall ev, ev ∈ evs -> exists key, ev = Event (HGet key "quantity") None.
Proof.
  induction order_items as [|item rest IH]; intros pipeline w Hread.
  - exists []. simpl. rewrite !app_nil_r. split; [by destruct w|].
    intros ev Hev. by apply elem_of_nil in Hev.
  - cbn [for_each_acc]. unfold bind.
    rewrite redis_item_ok by (apply Hread; left).
    set (w1 := log _ w).
    destruct (IH (pipeline ++ [expected_write (cache w) operation item]) w1) as (evs & Hrun & Hevs).
    { intros it Hit. apply Hread. by right. }
    rewrite Hrun. eexists (_ :: evs). split.
    + subst w1. simpl. by rewrite <- !app_assoc.
    + intros ev Hev. apply elem_of_cons in Hev as [->|Hev]; eauto.
Qed.

Lemma extern_no_faults (c : call) (w : world) :
  extern no_faults c w = (Ok tt, log (Event c None) w).
Proof. reflexivity. Qed.

(** The warm path of [update_stock_redis] when no call fails. *)
Lemma update_stock_redis_warm_run (w : world) (order_items : list order_item)
    (operation : string) :
  order_items ≠ [] ->
  warm (cache w) ->
  (forall item, item ∈ order_items ->
     is_Some (current_quantity (cache w) (li_product_id (fields_of item)))) ->
  exists evs,
    update_stock_redis no_faults order_items operation w =
      (Ok tt,
       World (durable w) (sessions w)
             (apply_writes (map (expected_write (cache w) operation) order_items) (cache w))
             (trace w ++ evs ++
              [Event (PipelineExecute (map (expected_write (cache w) operation) order_items))
                     None])).
Proof.
  intros Hne Hwarm Hread.
  destruct order_items as [|item rest]; [done|].
  destruct (scan_warm _ Hwarm) as (k & l & Hscan).
  destruct w as [d ss c t]. cbn [durable sessions cache trace] in *.
  unfold update_stock_redis, get_redis_conn, scan_stock_keys, bind.
  rewrite !extern_no_faults. cbv [log]. cbn [durable sessions cache trace].
  rewrite Hscan.
  set (w1 := World _ _ _ _).
  destruct (redis_loop_ok operation (item :: rest) [] w1) as (evs & Hrun & _);
    [exact Hread|].
  rewrite Hrun. rewrite pipeline_execute_no_faults. subst w1. cbn [durable sessions cache trace].
  eexists (_ :: _ :: evs). rewrite app_nil_l. f_equal. f_equal.
  by rewrite <- !app_assoc.
Qed.

Lemma cached_after_writes (w' : world) (pid : Z) (field : string) :
  cached w' pid field = (cache w' !! stock_key pid) ≫= (fun hash => hash !! field).
Proof. reflexivity. Qed.

(** The entry left for a product by the expected writes of a batch is
    the one of the product's last line. *)
Lemma expected_writes_last (c : gmap string (gmap string string)) (operation : string)
    (pre post : list order_item) (item : order_item) :
  (forall later, later ∈ post ->
     li_product_id (fields_of later) ≠ li_product_id (fields_of item)) ->
  let f := fields_of item in
  let pid := li_product_id f in
  let current := default 0 (current_quantity c pid) in
  exists hash,
    apply_writes (map (expected_write c operation) (pre ++ item :: post)) c !! stock_key pid
      = Some hash /\
    hash !! "quantity" =
      Some (py_str (if String.eqb operation "+" then current + li_quantity f
                    else current - li_quantity f)) /\
    hash !! "name" = Some (default ("Product " +:+ py_str pid) (li_name f)) /\
    hash !! "sku" = Some (default ("SKU-" +:+ py_str pid) (li_sku f)) /\
    hash !! "price" = Some (float_repr (default float_zero (li_price f))).
Proof.
  intros Hpost f pid current.
  rewrite map_app. simpl map.
  set (q := if String.eqb operation "+" then current + li_quantity f
            else current - li_quantity f).
  set (n := default ("Product " +:+ py_str pid) (li_name f)).
  set (s := default ("SKU-" +:+ py_str pid) (li_sku f)).
  set (p := default float_zero (li_price f)).
  change (expected_write c operation item) with (stock_key pid, entry_fields q n s p).
  destruct (apply_writes_last (map (expected_write c operation) pre)
              (map (expected_write c operation) post) (stock_key pid) q n s p c)
    as (hash & Heq & Hq & Hn & Hs & Hp & _).
  - intros Hin. apply list_elem_of_fmap in Hin as ([k' fs] & Hk & Hin).
    apply list_elem_of_In, in_map_iff in Hin as (later & Hlater & Hin).
    apply list_elem_of_In in Hin. specialize (Hpost later Hin).
    unfold expected_write in Hlater. injection Hlater as <- _.
    simpl in Hk. by apply stock_key_inj in Hk.
  - by exists hash.
Qed.

(** C8: with a non-empty batch, a warm cache, readable cached
    quantities and no failing call, [update_stock_redis] returns
    normally after sending one pipeline whose commands are, line by
    line and whatever the shape of each line, the expected entries:
    quantity [current + quantity] for ["+"] and [current - quantity]
    otherwise, with [current] 0 when the key is absent, and name, sku
    and price defaulting to ["Product {id}"], ["SKU-{id}"] and [0.0].
    The cache afterwards is the old cache with these commands applied
    in order, so for the last line of each product the four fields hold
    exactly those texts; the quantity is written as it comes out, also
    when it is negative. *)
Theorem update_stock_redis_warm_writes (w : world) (order_items : list order_item)
    (operation : string) :
  order_items ≠ [] ->
  warm (cache w) ->
  (forall item, item ∈ order_items ->
     is_Some (current_quantity (cache w) (li_product_id (fields_of item)))) ->
  let '(r, w') := update_stock_redis no_faults order_items operation w in
  let cmds := map (expected_write (cache w) operation) order_items in
  r = Ok tt /\
  durable w' = durable w /\
  sessions w' = sessions w /\
  last (new_events w w') = Some (Event (PipelineExecute cmds) None) /\
  cache w' = apply_writes cmds (cache w) /\
  forall pre item post, order_items = pre ++ item :: post ->
    (forall later, later ∈ post ->
       li_product_id (fields_of later) ≠ li_product_id (fields_of item)) ->
    let f := fields_of item in
    let pid := li_product_id f in
    let current := default 0 (current_quantity (cache w) pid) in
    cached w' pid "quantity" =
      Some (py_str (if String.eqb operation "+" then current + li_quantity f
                    else current - li_quantity f)) /\
    cached w' pid "name" = Some (default ("Product " +:+ py_str pid) (li_name f)) /\
    cached w' pid "sku" = Some (default ("SKU-" +:+ py_str pid) (li_sku f)) /\
    cached w' pid "price" = Some (float_repr (default float_zero (li_price f))).
Proof.
  intros Hne Hwarm Hread.
  destruct (update_stock_redis_warm_run w order_items operation Hne Hwarm Hread)
    as (evs & ->).
  cbv zeta. cbn [durable sessions cache].
  split; [done|]. split; [done|]. split; [done|]. split.
  { unfold new_events. cbn [trace]. rewrite drop_app_length.
    apply last_snoc. }
  split; [done|].
  intros pre item post -> Hpost.
  destruct (expected_writes_last (cache w) operation pre post item Hpost)
    as (hash & Heq & Hq & Hn & Hs & Hp).
  rewrite !cached_after_writes. cbn [cache]. rewrite Heq. simpl.
  by rewrite Hq, Hn, Hs, Hp.
Qed.

(** ** The cache synchronizer *)

Lemma elem_of_join_rows (d : database) (pid : Z) (p : product) (q : Z) :
  (pid, (p, q)) ∈ join_rows d <->
  products d !! pid = Some p /\ stocks d !! pid = Some q.
Proof.
  unfold join_rows. rewrite elem_of_map_to_list. apply map_lookup_zip_Some.
Qed.

Lemma join_rows_NoDup (d : database) : NoDup (join_rows d).*1.
Proof. apply NoDup_fst_map_to_list. Qed.

Lemma pipeline_of_rows (rows : list (Z * (product * Z))) :
  forall init,
  foldl (fun pipeline row =>
           let '(product_id, (p, quantity)) := row in
           pipeline ++ [(stock_key product_id,
                         entry_fields quantity (p_name p) (p_sku p) (p_price p))])
        init rows
  = init ++ map row_write rows.
Proof.
  induction rows as [|[pid [p q]] rows IH]; intros init; simpl.
  - by rewrite app_nil_r.
  - rewrite IH. by rewrite <- app_assoc.
Qed.

(** [_populate_redis_from_mysql] when no call fails: it opens a
    session, reads the join, sends the entries of its rows in one
    pipeline (nothing when there is no row) and closes the session. *)
Lemma populate_no_faults (w : world) :
  let h := length (sessions w) in
  let rows := join_rows (durable w) in
  _populate_redis_from_mysql no_faults w =
    (Ok tt,
     World (durable w) (sessions w ++ [Session None [] true])
           (apply_writes (map row_write rows) (cache w))
           (trace w ++
            [Event (GetSession h) None; Event (Execute h SelectJoin) None] ++
            match rows with
            | [] => []
            | _ :: _ => [Event (PipelineExecute (map row_write rows)) None]
            end ++
            [Event (Close h) None])).
Proof.
  destruct w as [d ss c t]. cbn [durable sessions cache trace]. cbv zeta.
  cbv [_populate_redis_from_mysql get_sqlalchemy_session try_finally try_except bind
       execute_select_join with_session session_close local put_session ret raise].
  rewrite !extern_no_faults.
  cbv [log set_sessions session_view default id]. cbn [durable sessions cache trace txn added].
  rewrite lookup_snoc. cbn [txn added]. rewrite insert_snoc.
  destruct (join_rows d) as [|row rows] eqn:Hrows.
  - cbn [length Nat.eqb]. cbn [durable sessions cache trace].
    rewrite lookup_snoc, insert_snoc. cbn [durable sessions cache trace].
    simpl. by rewrite <- !app_assoc.
  - cbn [length Nat.eqb]. rewrite pipeline_execute_no_faults.
    cbn [durable sessions cache trace].
    rewrite lookup_snoc, insert_snoc. cbn [durable sessions cache trace].
    rewrite pipeline_of_rows. simpl. by rewrite <- !app_assoc.
Qed.

Lemma row_write_keys (rows : list (Z * (product * Z))) (pid : Z) :
  stock_key pid ∈ (map row_write rows).*1 -> pid ∈ rows.*1.
Proof.
  intros Hin. apply list_elem_of_fmap in Hin as ([k fs] & Hk & Hin).
  apply list_elem_of_In, in_map_iff in Hin as ([pid' pq] & Hrow & Hin).
  apply list_elem_of_In in Hin.
  unfold row_write in Hrow. injection Hrow as <- _. simpl in Hk.
  apply stock_key_inj in Hk as ->.
  apply list_elem_of_fmap. by exists (pid', pq).
Qed.

(** C7: with a non-empty batch and no key under [stock:*] in the
    cache, [update_stock_redis] is, whatever fails, the connection, the
    scan and then [_populate_redis_from_mysql]: the line items and the
    operation play no part.  When no call fails it returns normally
    without a single HGET; every product that has a StockRecord gets an
    entry made of the quantity, name, sku and price of its row of the
    join and of nothing else; every other key stays as it was; and when
    the join has no row the calls are the connection, the scan, the
    session, the SELECT and the close, and the cache is unchanged. *)
Theorem update_stock_redis_cold_resyncs (faults : nat -> option exn) (w : world)
    (order_items : list order_item) (operation : string) :
  order_items ≠ [] ->
  cold (cache w) ->
  update_stock_redis faults order_items operation w =
    (let! _ := get_redis_conn faults in
     let! _ := scan_stock_keys faults in
     _populate_redis_from_mysql faults) w /\
  let '(r, w') := update_stock_redis no_faults order_items operation w in
  let h := length (sessions w) in
  r = Ok tt /\
  durable w' = durable w /\
  (forall ev, ev ∈ new_events w w' -> forall key field, ev_call ev ≠ HGet key field) /\
  (forall pid p q,
     products (durable w) !! pid = Some p -> stocks (durable w) !! pid = Some q ->
     cached w' pid "quantity" = Some (py_str q) /\
     cached w' pid "name" = Some (p_name p) /\
     cached w' pid "sku" = Some (p_sku p) /\
     cached w' pid "price" = Some (float_repr (p_price p)) /\
     forall field, field ∉ ["quantity"; "name"; "sku"; "price"] ->
       cached w' pid field = None) /\
  (forall key, (forall pid, key = stock_key pid -> pid ∉ (join_rows (durable w)).*1) ->
     cache w' !! key = cache w !! key) /\
  (join_rows (durable w) = [] ->
     cache w' = cache w /\
     new_events w w' =
       [Event GetRedis None; Event (ScanIter "stock:*") None;
        Event (GetSession h) None; Event (Execute h SelectJoin) None;
        Event (Close h) None]).
Proof.
  intros Hne Hcold.
  destruct order_items as [|item rest]; [done|]. clear Hne.
  pose proof (scan_cold _ Hcold) as Hscan.
  split.
  { unfold update_stock_redis, scan_stock_keys, bind.
    destruct (get_redis_conn faults w) as [[[]|e] w1] eqn:Hconn; [|done].
    assert (Hc1 : cache w1 = cache w).
    { unfold get_redis_conn, extern in Hconn.
      destruct (faults _); simplify_eq; done. }
    destruct (extern faults (ScanIter "stock:*") w1) as [[[]|e] w2] eqn:Hext; [|done].
    assert (Hc2 : cache w2 = cache w1).
    { unfold extern in Hext. destruct (faults _); simplify_eq; done. }
    rewrite Hc2, Hc1, Hscan. done. }
  destruct w as [d ss c t]. cbn [durable sessions cache trace] in *.
  unfold update_stock_redis, get_redis_conn, scan_stock_keys, bind.
  rewrite !extern_no_faults. cbv [log]. cbn [durable sessions cache trace].
  rewrite Hscan. rewrite populate_no_faults. cbn [durable sessions cache trace].
  set (rows := join_rows d).
  split; [done|]. split; [done|]. split.
  { intros ev Hev key field. unfold new_events in Hev. cbn [trace] in Hev.
    rewrite <- !app_assoc, drop_app_length in Hev. simpl in Hev.
    destruct rows; simpl in Hev; in_cases Hev; by subst ev. }
  split.
  { intros pid p q Hp Hq.
    assert (Hin : (pid, (p, q)) ∈ rows) by (by apply elem_of_join_rows).
    apply list_elem_of_split in Hin as (pre & post & Hsplit).
    pose proof (join_rows_NoDup d) as Hnodup. fold rows in Hnodup.
    rewrite Hsplit, fmap_app, fmap_cons in Hnodup.
    apply NoDup_app in Hnodup as (_ & Hpre & Hpost). simpl in Hpre.
    apply NoDup_cons in Hpost as [Hpost _].
    rewrite !cached_after_writes. cbn [cache]. rewrite Hsplit, map_app. simpl map.
    change (row_write (pid, (p, q)))
      with (stock_key pid, entry_fields q (p_name p) (p_sku p) (p_price p)).
    destruct (apply_writes_last (map row_write pre) (map row_write post) (stock_key pid)
                q (p_name p) (p_sku p) (p_price p) c)
      as (hash & Heq & Hq' & Hn & Hs & Hp' & Hother).
    { intros Hin. by apply row_write_keys in Hin. }
    rewrite Heq. cbn [mbind option_bind]. repeat (split; [done|]).
    intros field Hfield. rewrite cached_after_writes. cbn [cache]. rewrite Heq.
    cbn [mbind option_bind]. rewrite (Hother field Hfield).
    rewrite apply_writes_other.
    - rewrite (Hcold _ (stock_key_matches pid)). done.
    - intros Hin. apply row_write_keys in Hin. apply (Hpre pid Hin). left. }
  split.
  { intros key Hkey. apply apply_writes_other.
    intros Hin. apply list_elem_of_fmap in Hin as ([k fs] & Hk & Hin).
    apply list_elem_of_In, in_map_iff in Hin as ([pid pq] & Hrow & Hin).
    apply list_elem_of_In in Hin. unfold row_write in Hrow. injection Hrow as <- _.
    simpl in Hk. apply (Hkey pid Hk). apply list_elem_of_fmap. by exists (pid, pq). }
  intros Hrows. subst rows. rewrite Hrows. split; [done|].
  unfold new_events. cbn [trace]. rewrite <- !app_assoc, drop_app_length. done.
Qed.

(** ** Both stores after an order operation *)

(** C1 (what the code does when a product occurs on two lines of the
    order): product 1 has 10 units in the database and in the warm
    cache.  Checking out 2 units and 3 units of it in one order leaves 5
    in the database and 7 in the cache: both cache reads happen before
    the pipeline is sent, so the second line starts again from 10 and
    its write replaces the first.  Checking the same lines in leaves 15
    and 13. *)
Theorem order_operation_repeated_product_diverges :
  let order_items := [MapItem (line 1 2); MapItem (line 1 3)] in
  stocks (durable two_products_warm) !! 1 = Some 10 /\
  cached two_products_warm 1 "quantity" = Some "10" /\
  let '(r_out, w_out) := order_operation no_faults 0 order_items "-" two_products_warm in
  let '(r_in, w_in) := order_operation no_faults 0 order_items "+" two_products_warm in
  r_out = Ok tt /\
  stocks (durable w_out) !! 1 = Some 5 /\
  cached w_out 1 "quantity" = Some "7" /\
  r_in = Ok tt /\
  stocks (durable w_in) !! 1 = Some 15 /\
  cached w_in 1 "quantity" = Some "13".
Proof. vm_compute. repeat split; reflexivity. Qed.

(** ** An order whose lines name different products *)

Lemma adjusted_cons (f : Z -> Z -> Z) (item : order_item) (l : list order_item)
    (st : gmap Z Z) :
  adjusted f (item :: l) st =
    adjusted f l (alter (fun q => f q (li_quantity (fields_of item)))
                        (li_product_id (fields_of item)) st).
Proof. reflexivity. Qed.

Lemma adjusted_app (f : Z -> Z -> Z) (l k : list order_item) (st : gmap Z Z) :
  adjusted f (l ++ k) st = adjusted f k (adjusted f l st).
Proof. unfold adjusted. apply foldl_app. Qed.

(** The loop of [update_stock_mysql] on a batch of one shape when no
    call fails: every line is applied, in the session only. *)
Lemma update_loop_exact (h : nat) (operation : string) (f : Z -> Z -> Z)
    (order_items l : list order_item) :
  sql_operator operation = Some f ->
  (exists first, order_items !! 0%nat = Some first /\
     forall item, item ∈ l -> hasattr_product_id item = hasattr_product_id first) ->
  forall (w : world) (s : session),
  sessions w !! h = Some s ->
  exists s' evs,
    for_each l (fun item =>
      let! (pid, qty) := mysql_item order_items item in
      let! _ := execute_update_delta no_faults h operation pid qty in
      ret tt) w
    = (Ok tt, World (durable w) (<[h := s']> (sessions w)) (cache w) (trace w ++ evs)) /\
    added s' = added s /\
    stocks (default (durable w) (txn s')) = adjusted f l (stocks (session_view w s)) /\
    products (default (durable w) (txn s')) = products (session_view w s).
Proof.
  intros Hop (first & H0 & Hshape).
  induction l as [|item l IH]; intros w s Hs.
  - exists s, []. simpl. rewrite app_nil_r, list_insert_id by done.
    by destruct w.
  - cbn [for_each]. unfold bind at 1. unfold bind at 1.
    rewrite (mysql_item_same_shape order_items first item w H0) by (apply Hshape; left).
    unfold bind at 1.
    rewrite (execute_update_delta_ok no_faults h s operation f _ _ w Hop Hs eq_refl).
    unfold ret at 1.
    pose proof (updated_session h s
                  (UpdateDelta operation (li_product_id (fields_of item))
                     (li_quantity (fields_of item)))
                  (li_product_id (fields_of item))
                  (fun q => f q (li_quantity (fields_of item))) w Hs) as Hs1.
    destruct (IH (fun it Hit => Hshape it (list_elem_of_further _ _ _ Hit)) _ _ Hs1)
      as (s' & evs & Hrun & Hadd & Hst & Hpr).
    rewrite Hrun. exists s'. eexists (_ :: evs).
    unfold updated in *. cbn [durable sessions cache trace] in *.
    rewrite list_insert_insert_eq, <- app_assoc. split; [done|].
    split; [done|]. split; [|done].
    rewrite Hst. by rewrite adjusted_cons.
Qed.

(** Adjusting by lines of other products leaves a product's row
    alone. *)
Lemma adjusted_other (f : Z -> Z -> Z) (l : list order_item) (pid : Z) :
  forall st, (forall item, item ∈ l -> li_product_id (fields_of item) ≠ pid) ->
  adjusted f l st !! pid = st !! pid.
Proof.
  induction l as [|item l IH]; intros st Hl; [done|].
  rewrite adjusted_cons.
  rewrite IH by (intros it Hit; apply Hl; by right).
  apply lookup_alter_ne. apply Hl. left.
Qed.

Lemma adjusted_once (f : Z -> Z -> Z) (pre post : list order_item) (item : order_item)
    (st : gmap Z Z) (Q : Z) :
  (forall other, other ∈ pre ++ post ->
     li_product_id (fields_of other) ≠ li_product_id (fields_of item)) ->
  st !! li_product_id (fields_of item) = Some Q ->
  adjusted f (pre ++ item :: post) st !! li_product_id (fields_of item)
    = Some (f Q (li_quantity (fields_of item))).
Proof.
  intros Hother HQ. rewrite adjusted_app, adjusted_cons.
  rewrite adjusted_other by (intros it Hit; apply Hother, elem_of_app; by right).
  rewrite lookup_alter_eq.
  rewrite adjusted_other by (intros it Hit; apply Hother, elem_of_app; by left).
  by rewrite HQ.
Qed.

(** [session.commit()] on a session with nothing left to flush. *)
Lemma session_commit_no_faults (h : nat) (s : session) (w : world) :
  sessions w !! h = Some s ->
  added s = [] ->
  session_commit no_faults h w =
    (Ok tt, World (session_view w s) (<[h := Session None [] false]> (sessions w))
                  (cache w) (trace w ++ [Event (Commit h) None])).
Proof.
  intros Hs Hadd. destruct w as [d ss c t]. destruct s as [tx ad cl]. simpl in *. subst ad.
  assert (Hlt : (h < length ss)%nat) by (by eapply lookup_lt_Some).
  unfold session_commit, bind. rewrite extern_no_faults.
  unfold flush_pending, with_session, log. cbn [durable sessions cache trace].
  rewrite Hs. cbn [added insert_rows session_view txn durable].
  cbn [set_sessions durable sessions cache trace].
  rewrite list_lookup_insert_eq by done.
  cbn [set_durable set_sessions session_view txn default durable sessions cache trace closed].
  rewrite list_insert_insert_eq, set_stocks_same. reflexivity.
Qed.

(** The two stores after an order operation with no failing call, for
    a product whose last line in the order is [item]: the database has
    applied every line of the order, the cache holds the quantity it had
    before the order adjusted by that last line alone. *)
Lemma order_operation_stores (w : world) (h : nat) (s : session)
    (pre post : list order_item) (item : order_item) (operation : string)
    (f : Z -> Z -> Z) (Q : Z) :
  let order_items := pre ++ item :: post in
  let pid := li_product_id (fields_of item) in
  let D := li_quantity (fields_of item) in
  sessions w !! h = Some s -> txn s = None -> added s = [] ->
  (operation = "+" /\ f = Z.add) \/ (operation = "-" /\ f = Z.sub) ->
  same_shape order_items = true ->
  (forall later, later ∈ post -> li_product_id (fields_of later) ≠ pid) ->
  (forall line, line ∈ order_items ->
     is_Some (current_quantity (cache w) (li_product_id (fields_of line)))) ->
  is_Some (cache w !! stock_key pid) ->
  current_quantity (cache w) pid = Some Q ->
  let '(r, w') := order_operation no_faults h order_items operation w in
  r = Ok tt /\
  stocks (durable w') = adjusted f order_items (stocks (durable w)) /\
  cached w' pid "quantity" = Some (py_str (f Q D)).
Proof.
  intros order_items pid D Hs Htxn Hadd Hop Hshape Hlast Hread Hentry Hcur.
  assert (Hsql : sql_operator operation = Some f)
    by (destruct Hop as [[-> ->]|[-> ->]]; reflexivity).
  destruct (same_shape_first _ Hshape) as [Hnil|Hfirst];
    [by destruct pre|].
  destruct (update_loop_exact h operation f order_items order_items Hsql Hfirst w s Hs)
    as (s1 & evs & Hrun & Hadd1 & Hst & _).
  unfold order_operation. unfold bind at 1. unfold update_stock_mysql, try_except.
  rewrite Hrun. unfold bind at 1.
  assert (Hlt : (h < length (sessions w))%nat) by (by eapply lookup_lt_Some).
  rewrite (session_commit_no_faults h s1);
    [|cbn [sessions]; by apply list_lookup_insert_eq|by rewrite Hadd1, Hadd].
  cbn [durable sessions cache trace session_view].
  set (w2 := World _ _ _ _).
  assert (Hwarm : warm (cache w2)).
  { exists (stock_key pid). split; [apply stock_key_matches | exact Hentry]. }
  destruct (update_stock_redis_warm_run w2 order_items operation) as (evs2 & ->);
    [by destruct pre | exact Hwarm | exact Hread |].
  subst w2. cbn [durable sessions cache trace].
  split; [done|]. split.
  - unfold session_view at 1. cbn [durable]. rewrite Hst.
    unfold session_view. by rewrite Htxn.
  - destruct (expected_writes_last (cache w) operation pre post item Hlast)
      as (hash & Heq & Hq & _).
    rewrite cached_after_writes. cbn [cache]. fold pid in Heq. subst order_items.
    rewrite Heq. simpl.
    rewrite Hq. fold pid. rewrite Hcur. simpl default.
    destruct Hop as [[-> ->]|[-> ->]]; reflexivity.
Qed.

(** For a product that the order names on one line only, with the
    database and the warm cache agreeing on its quantity [Q]: after the
    order operation both hold [Q - D] on a check-out and [Q + D] on a
    check-in, [D] being the quantity of that line. *)
Lemma order_operation_keeps_stores_equal (w : world) (h : nat) (s : session)
    (pre post : list order_item) (item : order_item) (operation : string)
    (f : Z -> Z -> Z) (Q : Z) :
  let order_items := pre ++ item :: post in
  let pid := li_product_id (fields_of item) in
  let D := li_quantity (fields_of item) in
  sessions w !! h = Some s -> txn s = None -> added s = [] ->
  (operation = "+" /\ f = Z.add) \/ (operation = "-" /\ f = Z.sub) ->
  same_shape order_items = true ->
  (forall other, other ∈ pre ++ post -> li_product_id (fields_of other) ≠ pid) ->
  (forall line, line ∈ order_items ->
     is_Some (current_quantity (cache w) (li_product_id (fields_of line)))) ->
  stocks (durable w) !! pid = Some Q ->
  is_Some (cache w !! stock_key pid) ->
  current_quantity (cache w) pid = Some Q ->
  let '(r, w') := order_operation no_faults h order_items operation w in
  r = Ok tt /\
  stocks (durable w') !! pid = Some (f Q D) /\
  cached w' pid "quantity" = Some (py_str (f Q D)).
Proof.
  intros order_items pid D Hs Htxn Hadd Hop Hshape Hother Hread HQ Hentry Hcur.
  pose proof (order_operation_stores w h s pre post item operation f Q
                Hs Htxn Hadd Hop Hshape) as H.
  cbv zeta in H. fold order_items pid D in H.
  destruct (order_operation no_faults h order_items operation w) as [r w'].
  destruct H as (Hr & Hd & Hc); try done.
  { intros later Hlater. apply Hother, elem_of_app. by right. }
  split; [done|]. split; [|done].
  rewrite Hd. by apply adjusted_once.
Qed.

(** For a product that the order names on two lines, [D1] then [D2]
    units, the database ends at [Q] adjusted by both and the cache at
    [Q] adjusted by [D2] alone; the two differ as soon as [D1] is not
    zero. *)
Lemma order_operation_repeated_line (w : world) (h : nat) (s : session)
    (earlier item : order_item) (operation : string) (f : Z -> Z -> Z) (Q : Z) :
  let pid := li_product_id (fields_of item) in
  let D1 := li_quantity (fields_of earlier) in
  let D2 := li_quantity (fields_of item) in
  li_product_id (fields_of earlier) = pid ->
  sessions w !! h = Some s -> txn s = None -> added s = [] ->
  (operation = "+" /\ f = Z.add) \/ (operation = "-" /\ f = Z.sub) ->
  same_shape [earlier; item] = true ->
  stocks (durable w) !! pid = Some Q ->
  is_Some (cache w !! stock_key pid) ->
  current_quantity (cache w) pid = Some Q ->
  let '(r, w') := order_operation no_faults h [earlier; item] operation w in
  r = Ok tt /\
  stocks (durable w') !! pid = Some (f (f Q D1) D2) /\
  cached w' pid "quantity" = Some (py_str (f Q D2)) /\
  (D1 ≠ 0 -> cached w' pid "quantity" ≠ py_str <$> stocks (durable w') !! pid).
Proof.
  intros pid D1 D2 Hsame Hs Htxn Hadd Hop Hshape HQ Hentry Hcur.
  pose proof (order_operation_stores w h s [earlier] [] item operation f Q
                Hs Htxn Hadd Hop Hshape) as H.
  cbv zeta in H. fold pid D2 in H.
  change ([earlier] ++ [item]) with [earlier; item] in H.
  destruct (order_operation no_faults h [earlier; item] operation w) as [r w'].
  destruct H as (Hr & Hd & Hc); try done.
  { intros later Hlater. by apply elem_of_nil in Hlater. }
  { intros l Hl. in_cases Hl; subst l; [rewrite Hsame|]; fold pid; rewrite Hcur; eauto. }
  assert (Hdur : stocks (durable w') !! pid = Some (f (f Q D1) D2)).
  { rewrite Hd. rewrite !adjusted_cons. unfold adjusted. simpl foldl.
    rewrite Hsame. fold pid. rewrite !lookup_alter_eq, HQ. reflexivity. }
  split; [done|]. split; [done|]. split; [done|].
  intros HD1. rewrite Hc, Hdur. simpl. intros [= Heq].
  apply py_str_inj in Heq.
  destruct Hop as [[_ ->]|[_ ->]]; lia.
Qed.

(** ** A batch of two shapes, in general *)

Lemma for_each_app {A} (l k : list A) (body : A -> M unit) (w : world) :
  for_each (l ++ k) body w =
    match for_each l body w with
    | (Ok _, w1) => for_each k body w1
    | (Raise e, w1) => (Raise e, w1)
    end.
Proof.
  revert w. induction l as [|x l IH]; intros w; [done|].
  simpl. unfold bind. destruct (body x w) as [[[]|e] w1]; [apply IH|done].
Qed.

Lemma mysql_item_misread (order_items : list order_item) (first item : order_item)
    (w : world) :
  order_items !! 0%nat = Some first ->
  hasattr_product_id item ≠ hasattr_product_id first ->
  exists e, mysql_item order_items item w = (Raise e, w).
Proof.
  intros H0 Hne. destruct order_items as [|first' rest]; [done|].
  injection H0 as ->. by apply mysql_item_other_shape.
Qed.

(** In a batch whose first lines have the shape of the first one and
    whose next line has the other shape, [update_stock_mysql] applies
    the first lines, raises on that next line and applies neither it nor
    any line after it. *)
Lemma update_stock_mysql_stops_at_other_shape (w : world) (h : nat) (s : session)
    (pre post : list order_item) (item : order_item) (operation : string)
    (f : Z -> Z -> Z) (first : order_item) :
  sessions w !! h = Some s ->
  sql_operator operation = Some f ->
  (pre ++ item :: post) !! 0%nat = Some first ->
  (forall line, line ∈ pre -> hasattr_product_id line = hasattr_product_id first) ->
  hasattr_product_id item ≠ hasattr_product_id first ->
  let '(r, w') := update_stock_mysql no_faults h (pre ++ item :: post) operation w in
  (exists e, r = Raise e) /\
  exists s', sessions w' !! h = Some s' /\
    stocks (session_view w' s') = adjusted f pre (stocks (session_view w s)).
Proof.
  intros Hs Hop H0 Hpre Hitem.
  unfold update_stock_mysql, try_except. rewrite for_each_app.
  destruct (update_loop_exact h operation f (pre ++ item :: post) pre Hop
              (ex_intro _ first (conj H0 Hpre)) w s Hs)
    as (s1 & evs & Hrun & _ & Hst & _).
  rewrite Hrun. cbn [for_each]. unfold bind at 1. unfold bind at 1.
  set (w1 := World _ _ _ _).
  destruct (mysql_item_misread (pre ++ item :: post) first item w1 H0 Hitem) as [e He].
  rewrite He. unfold raise. split; [by exists e|].
  exists s1. subst w1. cbn [sessions]. split.
  - apply list_lookup_insert_eq. by eapply lookup_lt_Some.
  - exact Hst.
Qed.

(** ** The theorems at concrete inputs *)

(** [check_out_then_check_in_restores] on product 1 of [two_products]:
    10 units, 2 checked out and back in. *)
Lemma check_out_then_check_in_restores_witness :
  sessions two_products !! 0%nat = Some (Session None [] false) /\
  stocks (session_view two_products (Session None [] false)) !! 1 = Some 10 /\
  let '(r1, w1) := check_out_items_from_stock no_faults 0 [MapItem (line 1 2)] two_products in
  let '(r2, w2) := check_in_items_to_stock no_faults 0 [MapItem (line 1 2)] w1 in
  r1 = Ok tt /\ stock_seen w1 0 1 = Some (10 - 2) /\
  r2 = Ok tt /\ stock_seen w2 0 1 = Some 10 /\
  exists s2, sessions w2 !! 0%nat = Some s2 /\
             stocks (session_view w2 s2) =
             stocks (session_view two_products (Session None [] false)).
Proof.
  split; [reflexivity|]. split; [vm_compute; reflexivity|].
  apply (check_out_then_check_in_restores two_products 0 (Session None [] false)
           (MapItem (line 1 2)) 10).
  - reflexivity.
  - vm_compute; reflexivity.
Defined.

(** [update_stock_mysql_missing_row] on product 3, which [two_products]
    does not stock. *)
Lemma update_stock_mysql_missing_row_witness :
  stocks (session_view two_products (Session None [] false)) !! 3 = None /\
  let '(r, w') := update_stock_mysql no_faults 0 [MapItem (line 3 4)] "-" two_products in
  durable w' = durable two_products /\
  (forall qty, no_faults (length (trace two_products)) = None ->
     fst (execute_update_delta no_faults 0 "-" 3 qty two_products) = Ok 0) /\
  exists s', sessions w' !! 0%nat = Some s' /\
    stocks (session_view w' s') !! 3 = None /\
    ((forall n, no_faults n = None) -> same_shape [MapItem (line 3 4)] = true -> r = Ok tt) /\
    ((forall item, item ∈ [MapItem (line 3 4)] ->
        stocks (session_view two_products (Session None [] false))
          !! li_product_id (fields_of item) = None) ->
     stocks (session_view w' s') =
     stocks (session_view two_products (Session None [] false))).
Proof.
  split; [vm_compute; reflexivity|].
  apply (update_stock_mysql_missing_row no_faults two_products 0 (Session None [] false)
           [MapItem (line 3 4)] "-" 3).
  - reflexivity.
  - vm_compute; reflexivity.
  - right; reflexivity.
Defined.

Lemma two_products_cold : cold (cache two_products).
Proof. intros key _. apply lookup_empty. Qed.

Lemma two_products_warm_is_warm : warm (cache two_products_warm).
Proof. exists "stock:1". split; [reflexivity|]. vm_compute. eauto. Qed.

(** [update_stock_redis_cold_resyncs] on [two_products], whose cache is
    empty: the entry of product 1 after the resynchronisation. *)
Lemma update_stock_redis_cold_resyncs_witness :
  cached (snd (update_stock_redis no_faults [MapItem (line 1 2)] "-" two_products)) 1 "quantity"
    = Some (py_str 10) /\
  cached (snd (update_stock_redis no_faults [MapItem (line 1 2)] "-" two_products)) 1 "name"
    = Some "Some Item".
Proof.
  pose proof (update_stock_redis_cold_resyncs no_faults two_products [MapItem (line 1 2)] "-")
    as H.
  destruct H as [_ H]; [discriminate|exact two_products_cold|].
  destruct (update_stock_redis no_faults [MapItem (line 1 2)] "-" two_products) as [r w'].
  destruct H as (_ & _ & _ & H & _).
  destruct (H 1 (Product "Some Item" "12345" (PyFloat "99.9")) 10) as (Hq & Hn & _).
  - vm_compute; reflexivity.
  - vm_compute; reflexivity.
  - split; [exact Hq|exact Hn].
Defined.

(** [update_stock_redis_warm_writes] on [mixed_order]: product 1 goes
    from 10 to 8, product 3, absent from the cache, from 0 to -5. *)
Lemma update_stock_redis_warm_writes_witness :
  cached (snd (update_stock_redis no_faults mixed_order "-" two_products_warm)) 1 "quantity"
    = Some (py_str (10 - 2)) /\
  cached (snd (update_stock_redis no_faults mixed_order "-" two_products_warm)) 3 "quantity"
    = Some (py_str (0 - 5)) /\
  cached (snd (update_stock_redis no_faults mixed_order "-" two_products_warm)) 3 "name"
    = Some "New Item" /\
  cached (snd (update_stock_redis no_faults mixed_order "-" two_products_warm)) 3 "sku"
    = Some "SKU-3".
Proof.
  pose proof (update_stock_redis_warm_writes two_products_warm mixed_order "-") as H.
  destruct (update_stock_redis no_faults mixed_order "-" two_products_warm) as [r w'].
  destruct H as (_ & _ & _ & _ & _ & H).
  - discriminate.
  - exact two_products_warm_is_warm.
  - intros item Hin. in_cases Hin; subst item; vm_compute; eauto.
  - destruct (H [] (ObjItem (line 1 2))
                [MapItem (LineFields 3 5 (Some "New Item") None None)] eq_refl)
      as (Hq1 & _).
    { intros later Hin. in_cases Hin. subst later. discriminate. }
    destruct (H [ObjItem (line 1 2)]
                (MapItem (LineFields 3 5 (Some "New Item") None None)) [] eq_refl)
      as (Hq3 & Hn3 & Hs3 & _).
    { intros later Hin. by apply elem_of_nil in Hin. }
    simpl snd. repeat split.
    + exact Hq1.
    + exact Hq3.
    + exact Hn3.
    + exact Hs3.
Defined.

(** [set_stock_for_product_failure] when the UPDATE fails: the caller
    gets that failure and the cache is untouched. *)
Lemma set_stock_for_product_failure_witness :
  fst (set_stock_for_product second_call_fails 1 7 two_products_warm)
    = Raise (DriverError "connection lost") /\
  cache (snd (set_stock_for_product second_call_fails 1 7 two_products_warm))
    = cache two_products_warm.
Proof.
  pose proof (set_stock_for_product_failure second_call_fails two_products_warm 1 7) as H.
  cbv zeta in H.
  destruct (set_stock_for_product second_call_fails 1 7 two_products_warm) as [r w'] eqn:Hrun.
  destruct H as (_ & _ & _ & H).
  destruct (H (Execute 1 (UpdateSet 1 7)) (DriverError "connection lost")) as (Hr & Hc & _).
  - vm_compute in Hrun. injection Hrun as _ <-. vm_compute. right; left.
  - reflexivity.
  - split; [exact Hr|exact Hc].
Defined.

(** [set_stock_for_product_commits_only_on_insert] on product 1, which
    has a StockRecord: the committed data is unchanged. *)
Lemma set_stock_for_product_commits_only_on_insert_witness :
  durable (snd (set_stock_for_product no_faults 1 7 two_products_warm))
    = durable two_products_warm /\
  fst (set_stock_for_product no_faults 1 7 two_products_warm) = Ok "rows updated: 1".
Proof.
  pose proof (set_stock_for_product_commits_only_on_insert no_faults two_products_warm 1 7)
    as H.
  cbv zeta in H.
  destruct (set_stock_for_product no_faults 1 7 two_products_warm) as [r w'].
  destruct H as (_ & H & _).
  destruct H as (_ & Hd & _ & Hr).
  - vm_compute. eauto.
  - destruct Hr as [Hr _]; [reflexivity|].
    split; [exact Hd|exact Hr].
Defined.

(** [order_operation_keeps_stores_equal] on an order of 2 units of
    product 1 and 1 unit of product 2: both stores hold 8 for
    product 1. *)
Lemma order_operation_keeps_stores_equal_witness :
  let order_items := [MapItem (line 1 2); MapItem (line 2 1)] in
  fst (order_operation no_faults 0 order_items "-" two_products_warm) = Ok tt /\
  stocks (durable (snd (order_operation no_faults 0 order_items "-" two_products_warm))) !! 1
    = Some (10 - 2) /\
  cached (snd (order_operation no_faults 0 order_items "-" two_products_warm)) 1 "quantity"
    = Some (py_str (10 - 2)).
Proof.
  pose proof (order_operation_keeps_stores_equal two_products_warm 0 (Session None [] false)
                [] [MapItem (line 2 1)] (MapItem (line 1 2)) "-" Z.sub 10) as H.
  cbv zeta in H. cbv zeta.
  change ([] ++ MapItem (line 1 2) :: [MapItem (line 2 1)])
    with [MapItem (line 1 2); MapItem (line 2 1)] in H.
  destruct (order_operation no_faults 0 [MapItem (line 1 2); MapItem (line 2 1)] "-"
              two_products_warm) as [r w'].
  apply H.
  - reflexivity.
  - reflexivity.
  - reflexivity.
  - right. split; reflexivity.
  - reflexivity.
  - intros other Hin. in_cases Hin. subst other. discriminate.
  - intros item Hin. in_cases Hin; subst item; vm_compute; eauto.
  - vm_compute; reflexivity.
  - vm_compute; eauto.
  - vm_compute; reflexivity.
Defined.

(** [update_stock_mysql_stops_at_other_shape] on the two lines of
    [two_products]: the object line is applied, the dict line is not. *)
Lemma update_stock_mysql_stops_at_other_shape_witness :
  let '(r, w') :=
    update_stock_mysql no_faults 0 ([ObjItem (line 1 2)] ++ MapItem (line 2 3) :: []) "-"
      two_products in
  (exists e, r = Raise e) /\
  exists s', sessions w' !! 0%nat = Some s' /\
    stocks (session_view w' s') =
    adjusted Z.sub [ObjItem (line 1 2)]
      (stocks (session_view two_products (Session None [] false))).
Proof.
  apply (update_stock_mysql_stops_at_other_shape two_products 0 (Session None [] false)
           [ObjItem (line 1 2)] [] (MapItem (line 2 3)) "-" Z.sub (ObjItem (line 1 2))).
  - reflexivity.
  - reflexivity.
  - reflexivity.
  - intros l Hl. in_cases Hl. by subst l.
  - discriminate.
Defined.

(** [order_operation_repeated_line] on 2 units then 3 units of
    product 1: 5 in the database, 7 in the cache. *)
Lemma order_operation_repeated_line_witness :
  let order_items := [MapItem (line 1 2); MapItem (line 1 3)] in
  stocks (durable (snd (order_operation no_faults 0 order_items "-" two_products_warm))) !! 1
    = Some (10 - 2 - 3) /\
  cached (snd (order_operation no_faults 0 order_items "-" two_products_warm)) 1 "quantity"
    = Some (py_str (10 - 3)).
Proof.
  pose proof (order_operation_repeated_line two_products_warm 0 (Session None [] false)
                (MapItem (line 1 2)) (MapItem (line 1 3)) "-" Z.sub 10) as H.
  cbv zeta in H. cbv zeta.
  destruct (order_operation no_faults 0 [MapItem (line 1 2); MapItem (line 1 3)] "-"
              two_products_warm) as [r w'].
  destruct H as (_ & Hd & Hc & _).
  - reflexivity.
  - reflexivity.
  - reflexivity.
  - reflexivity.
  - right. split; reflexivity.
  - reflexivity.
  - vm_compute; reflexivity.
  - vm_compute; eauto.
  - vm_compute; reflexivity.
  - split; [exact Hd|exact Hc].
Defined.

(** ** A batch on the database: totals, order of the lines, round trip *)

Lemma adjusted_sub_lookup (l : list order_item) (pid : Z) :
  forall st : gmap Z Z,
  adjusted Z.sub l st !! pid = (fun q => q - ordered l pid) <$> st !! pid.
Proof.
  induction l as [|item l IH]; intros st.
  - simpl. destruct (st !! pid); simpl; [f_equal; lia|done].
  - rewrite adjusted_cons, IH. cbn [ordered foldr]. fold (ordered l pid).
    rewrite lookup_alter.
    destruct (decide (li_product_id (fields_of item) = pid)) as [->|Hne].
    + destruct (st !! pid); simpl; [f_equal; lia|done].
    + done.
Qed.

Lemma adjusted_add_lookup (l : list order_item) (pid : Z) :
  forall st : gmap Z Z,
  adjusted Z.add l st !! pid = (fun q => q + ordered l pid) <$> st !! pid.
Proof.
  induction l as [|item l IH]; intros st.
  - simpl. destruct (st !! pid); simpl; [f_equal; lia|done].
  - rewrite adjusted_cons, IH. cbn [ordered foldr]. fold (ordered l pid).
    rewrite lookup_alter.
    destruct (decide (li_product_id (fields_of item) = pid)) as [->|Hne].
    + destruct (st !! pid); simpl; [f_equal; lia|done].
    + done.
Qed.

Lemma adjusted_lookup (operation : string) (f : Z -> Z -> Z) (l : list order_item)
    (pid : Z) (st : gmap Z Z) :
  (operation = "+" /\ f = Z.add) \/ (operation = "-" /\ f = Z.sub) ->
  adjusted f l st !! pid = (fun q => f q (ordered l pid)) <$> st !! pid.
Proof.
  intros [[_ ->]|[_ ->]]; [apply adjusted_add_lookup|apply adjusted_sub_lookup].
Qed.

Lemma ordered_perm (l k : list order_item) (pid : Z) :
  l ≡ₚ k -> ordered l pid = ordered k pid.
Proof.
  induction 1 as [|x l k _ IH|x y l|l k m _ IH1 _ IH2]; simpl.
  - done.
  - fold (ordered l pid). fold (ordered k pid). by rewrite IH.
  - fold (ordered l pid). repeat case_decide; lia.
  - congruence.
Qed.

(** A batch of one shape on [update_stock_mysql] when no call fails:
    the world it leaves and the stocks the session then sees. *)
Lemma update_stock_mysql_run (w : world) (h : nat) (s : session)
    (order_items : list order_item) (operation : string) (f : Z -> Z -> Z) :
  sessions w !! h = Some s ->
  (operation = "+" /\ f = Z.add) \/ (operation = "-" /\ f = Z.sub) ->
  same_shape order_items = true ->
  exists s' evs,
    update_stock_mysql no_faults h order_items operation w
      = (Ok tt, World (durable w) (<[h := s']> (sessions w)) (cache w) (trace w ++ evs)) /\
    added s' = added s /\
    stocks (default (durable w) (txn s')) = adjusted f order_items (stocks (session_view w s)) /\
    products (default (durable w) (txn s')) = products (session_view w s).
Proof.
  intros Hs Hop Hshape.
  assert (Hsql : sql_operator operation = Some f)
    by (destruct Hop as [[-> ->]|[-> ->]]; reflexivity).
  unfold update_stock_mysql, try_except.
  destruct (same_shape_first _ Hshape) as [->|Hfirst].
  - exists s, []. simpl. rewrite app_nil_r, list_insert_id by done.
    by destruct w.
  - destruct (update_loop_exact h operation f order_items order_items Hsql Hfirst w s Hs)
      as (s' & evs & Hrun & Hrest).
    exists s', evs. by rewrite Hrun.
Qed.

Lemma stock_seen_after (w : world) (h : nat) (s s' : session) evs (pid : Z) :
  sessions w !! h = Some s ->
  stock_seen (World (durable w) (<[h := s']> (sessions w)) (cache w) (trace w ++ evs)) h pid
    = stocks (default (durable w) (txn s')) !! pid.
Proof.
  intros Hs. unfold stock_seen. cbn [sessions].
  rewrite list_lookup_insert_eq by (by eapply lookup_lt_Some). reflexivity.
Qed.

Lemma stock_seen_before (w : world) (h : nat) (s : session) (pid : Z) :
  sessions w !! h = Some s ->
  stock_seen w h pid = stocks (session_view w s) !! pid.
Proof. intros Hs. unfold stock_seen. by rewrite Hs. Qed.

(** What a session sees of every product after a batch. *)
Lemma update_stock_mysql_seen (w : world) (h : nat) (s : session)
    (order_items : list order_item) (operation : string) (f : Z -> Z -> Z) :
  sessions w !! h = Some s ->
  (operation = "+" /\ f = Z.add) \/ (operation = "-" /\ f = Z.sub) ->
  same_shape order_items = true ->
  exists w',
    update_stock_mysql no_faults h order_items operation w = (Ok tt, w') /\
    is_Some (sessions w' !! h) /\
    durable w' = durable w /\
    forall pid,
      stock_seen w' h pid = (fun q => f q (ordered order_items pid)) <$> stock_seen w h pid.
Proof.
  intros Hs Hop Hshape.
  destruct (update_stock_mysql_run w h s order_items operation f Hs Hop Hshape)
    as (s' & evs & Hrun & _ & Hst & _).
  eexists. split; [exact Hrun|]. split.
  { cbn [sessions]. rewrite list_lookup_insert_eq by (by eapply lookup_lt_Some). eauto. }
  split; [done|]. intros pid.
  rewrite (stock_seen_after w h s s' evs pid Hs), (stock_seen_before w h s pid Hs), Hst.
  by apply (adjusted_lookup operation).
Qed.

(** After a batch of one shape with no failing call, the session sees
    of every product its former quantity minus (for ["-"]) or plus (for
    ["+"]) the total the order asks of it, every line of a repeated
    product counted; a product without a row still has none. *)
Theorem update_stock_mysql_applies_totals (w : world) (h : nat) (s : session)
    (order_items : list order_item) (operation : string) (f : Z -> Z -> Z) :
  sessions w !! h = Some s ->
  (operation = "+" /\ f = Z.add) \/ (operation = "-" /\ f = Z.sub) ->
  same_shape order_items = true ->
  let '(r, w') := update_stock_mysql no_faults h order_items operation w in
  r = Ok tt /\
  forall pid,
    stock_seen w' h pid = (fun q => f q (ordered order_items pid)) <$> stock_seen w h pid.
Proof.
  intros Hs Hop Hshape.
  destruct (update_stock_mysql_seen w h s order_items operation f Hs Hop Hshape)
    as (w' & -> & _ & _ & Hseen).
  by split.
Qed.

(** The order of the lines does not matter to the database: two
    batches of one shape that are permutations of each other leave the
    session with the same view of every product. *)
Theorem update_stock_mysql_order_of_lines (w : world) (h : nat) (s : session)
    (order_items reordered : list order_item) (operation : string) :
  sessions w !! h = Some s ->
  operation = "+" \/ operation = "-" ->
  order_items ≡ₚ reordered ->
  same_shape order_items = true ->
  same_shape reordered = true ->
  forall pid,
    stock_seen (snd (update_stock_mysql no_faults h order_items operation w)) h pid =
    stock_seen (snd (update_stock_mysql no_faults h reordered operation w)) h pid.
Proof.
  intros Hs Hop Hperm Hshape1 Hshape2 pid.
  assert (Hf : exists f, (operation = "+" /\ f = Z.add) \/ (operation = "-" /\ f = Z.sub))
    by (destruct Hop; eauto).
  destruct Hf as [f Hf].
  destruct (update_stock_mysql_seen w h s order_items operation f Hs Hf Hshape1)
    as (w1 & -> & _ & _ & Hseen1).
  destruct (update_stock_mysql_seen w h s reordered operation f Hs Hf Hshape2)
    as (w2 & -> & _ & _ & Hseen2).
  simpl. by rewrite Hseen1, Hseen2, (ordered_perm _ _ pid Hperm).
Qed.

(** Checking a batch out and in again, or in and out again, with no
    failing call, leaves the session with the view of every product it
    had at the start, also for a batch that names a product on several
    lines. *)
Theorem check_out_check_in_batch (w : world) (h : nat) (s : session)
    (order_items : list order_item) :
  sessions w !! h = Some s ->
  same_shape order_items = true ->
  let '(r1, w1) := check_out_items_from_stock no_faults h order_items w in
  let '(r2, w2) := check_in_items_to_stock no_faults h order_items w1 in
  let '(r3, w3) := check_in_items_to_stock no_faults h order_items w in
  let '(r4, w4) := check_out_items_from_stock no_faults h order_items w3 in
  r1 = Ok tt /\ r2 = Ok tt /\ r3 = Ok tt /\ r4 = Ok tt /\
  forall pid, stock_seen w2 h pid = stock_seen w h pid /\
              stock_seen w4 h pid = stock_seen w h pid.
Proof.
  intros Hs Hshape. unfold check_out_items_from_stock, check_in_items_to_stock.
  destruct (update_stock_mysql_seen w h s order_items "-" Z.sub Hs
              (or_intror (conj eq_refl eq_refl)) Hshape)
    as (w1 & -> & [s1 Hs1] & _ & Hseen1).
  destruct (update_stock_mysql_seen w1 h s1 order_items "+" Z.add Hs1
              (or_introl (conj eq_refl eq_refl)) Hshape)
    as (w2 & -> & _ & _ & Hseen2).
  destruct (update_stock_mysql_seen w h s order_items "+" Z.add Hs
              (or_introl (conj eq_refl eq_refl)) Hshape)
    as (w3 & -> & [s3 Hs3] & _ & Hseen3).
  destruct (update_stock_mysql_seen w3 h s3 order_items "-" Z.sub Hs3
              (or_intror (conj eq_refl eq_refl)) Hshape)
    as (w4 & -> & _ & _ & Hseen4).
  repeat (split; [done|]). intros pid.
  rewrite Hseen2, Hseen1, Hseen4, Hseen3.
  destruct (stock_seen w h pid); simpl; split; f_equal; lia.
Qed.

(** ** What [update_stock_mysql] leaves alone *)

Lemma session_step_refl (h : nat) (operation : string) (w : world) :
  session_step h operation w w.
Proof.
  repeat split; auto. exists []. split; [by rewrite app_nil_r|].
  intros ev Hev. by apply elem_of_nil in Hev.
Qed.

Lemma session_step_trans (h : nat) (operation : string) (w1 w2 w3 : world) :
  session_step h operation w1 w2 -> session_step h operation w2 w3 ->
  session_step h operation w1 w3.
Proof.
  intros (Hd1 & Hc1 & Hl1 & Ho1 & evs1 & Ht1 & He1) (Hd2 & Hc2 & Hl2 & Ho2 & evs2 & Ht2 & He2).
  split; [congruence|]. split; [congruence|]. split; [congruence|]. split.
  - intros h' Hh'. rewrite Ho2, Ho1; done.
  - exists (evs1 ++ evs2). split; [by rewrite Ht2, Ht1, app_assoc|].
    intros ev Hev. apply elem_of_app in Hev as [Hev|Hev]; auto.
Qed.

Lemma execute_update_delta_step (faults : nat -> option exn) (h : nat) (operation : string)
    (pid qty : Z) (w : world) :
  session_step h operation w (snd (execute_update_delta faults h operation pid qty w)).
Proof.
  assert (Hlog : forall err (w0 : world),
            durable w0 = durable w -> cache w0 = cache w ->
            length (sessions w0) = length (sessions w) ->
            (forall h', h' ≠ h -> sessions w0 !! h' = sessions w !! h') ->
            trace w0 = trace w ++ [Event (Execute h (UpdateDelta operation pid qty)) err] ->
            session_step h operation w w0).
  { intros err w0 Hd Hc Hl Ho Ht. repeat split; auto.
    eexists. split; [exact Ht|]. intros ev Hev. apply list_elem_of_singleton in Hev as ->.
    simpl. eauto. }
  unfold execute_update_delta.
  destruct (sql_operator operation) as [f|].
  - unfold run_update, bind, extern.
    destruct (faults (length (trace w))) as [e|]; [by eapply Hlog|].
    unfold with_session. cbn [log sessions].
    destruct (sessions w !! h) as [s|] eqn:Hs; [|by eapply Hlog].
    cbn [snd]. eapply Hlog; cbn [set_sessions log durable cache sessions trace]; try done.
    + apply length_insert.
    + intros h' Hh'. by apply list_lookup_insert_ne.
  - unfold bind, extern, raise.
    destruct (faults (length (trace w))) as [e|]; by eapply Hlog.
Qed.

Lemma update_loop_step (faults : nat -> option exn) (h : nat) (operation : string)
    (order_items l : list order_item) :
  forall w : world,
  session_step h operation w
    (snd (for_each l (fun item =>
            let! (pid, qty) := mysql_item order_items item in
            let! _ := execute_update_delta faults h operation pid qty in
            ret tt) w)).
Proof.
  induction l as [|item l IH]; intros w; [apply session_step_refl|].
  cbn [for_each]. unfold bind at 1. unfold bind at 1.
  pose proof (mysql_item_world order_items item w) as Hw.
  destruct (mysql_item order_items item w) as [[[pid qty]|e] w0]; simpl in Hw; subst w0;
    [|apply session_step_refl].
  unfold bind at 1.
  pose proof (execute_update_delta_step faults h operation pid qty w) as Hstep.
  destruct (execute_update_delta faults h operation pid qty w) as [[rc|e] w1];
    simpl in Hstep; [|exact Hstep].
  unfold ret at 1. eapply session_step_trans; [exact Hstep|apply IH].
Qed.

(** Whatever the batch, the operation, the session value and the
    failures, [update_stock_mysql] changes nothing but the state of the
    session it was given: the committed data, the cache and every other
    session are as before, and the only calls it makes are the UPDATEs
    of that session (no commit, no flush, no rollback, no close, no
    cache call). *)
Theorem update_stock_mysql_touches_session_only (faults : nat -> option exn) (h : nat)
    (order_items : list order_item) (operation : string) (w : world) :
  let '(r, w') := update_stock_mysql faults h order_items operation w in
  durable w' = durable w /\
  cache w' = cache w /\
  length (sessions w') = length (sessions w) /\
  (forall h', h' ≠ h -> sessions w' !! h' = sessions w !! h') /\
  trace w' = trace w ++ new_events w w' /\
  forall ev, ev ∈ new_events w w' ->
    exists pid qty, ev_call ev = Execute h (UpdateDelta operation pid qty).
Proof.
  pose proof (update_loop_step faults h operation order_items order_items w) as Hstep.
  unfold update_stock_mysql, try_except.
  destruct (for_each order_items _ w) as [r w'] eqn:Hrun. simpl in Hstep.
  assert (Hgoal : durable w' = durable w /\ cache w' = cache w /\
            length (sessions w') = length (sessions w) /\
            (forall h', h' ≠ h -> sessions w' !! h' = sessions w !! h') /\
            trace w' = trace w ++ new_events w w' /\
            forall ev, ev ∈ new_events w w' ->
              exists pid qty, ev_call ev = Execute h (UpdateDelta operation pid qty)).
  { destruct Hstep as (Hd & Hc & Hl & Ho & evs & Ht & Hev).
    repeat (split; [done|]).
    unfold new_events. rewrite Ht, drop_app_length. by split. }
  destruct r; exact Hgoal.
Qed.

(** ** A failure in the middle of a batch *)

(** The loop on lines of the right shape while no call fails. *)
Lemma update_loop_exact_until (faults : nat -> option exn) (h : nat) (operation : string)
    (f : Z -> Z -> Z) (order_items l : list order_item) :
  sql_operator operation = Some f ->
  (exists first, order_items !! 0%nat = Some first /\
     forall item, item ∈ l -> hasattr_product_id item = hasattr_product_id first) ->
  forall (w : world) (s : session),
  sessions w !! h = Some s ->
  (forall i, (i < length l)%nat -> faults (length (trace w) + i)%nat = None) ->
  exists s' evs,
    for_each l (fun item =>
      let! (pid, qty) := mysql_item order_items item in
      let! _ := execute_update_delta faults h operation pid qty in
      ret tt) w
    = (Ok tt, World (durable w) (<[h := s']> (sessions w)) (cache w) (trace w ++ evs)) /\
    length evs = length l /\
    stocks (default (durable w) (txn s')) = adjusted f l (stocks (session_view w s)).
Proof.
  intros Hop (first & H0 & Hshape).
  induction l as [|item l IH]; intros w s Hs Hnf.
  - exists s, []. simpl. rewrite app_nil_r, list_insert_id by done.
    by destruct w.
  - cbn [for_each]. unfold bind at 1. unfold bind at 1.
    rewrite (mysql_item_same_shape order_items first item w H0) by (apply Hshape; left).
    unfold bind at 1.
    assert (Hf0 : faults (length (trace w)) = None).
    { specialize (Hnf 0%nat). rewrite Nat.add_0_r in Hnf. apply Hnf. simpl. lia. }
    rewrite (execute_update_delta_ok faults h s operation f _ _ w Hop Hs Hf0).
    unfold ret at 1.
    pose proof (updated_session h s
                  (UpdateDelta operation (li_product_id (fields_of item))
                     (li_quantity (fields_of item)))
                  (li_product_id (fields_of item))
                  (fun q => f q (li_quantity (fields_of item))) w Hs) as Hs1.
    destruct (IH (fun it Hit => Hshape it (list_elem_of_further _ _ _ Hit)) _ _ Hs1)
      as (s' & evs & Hrun & Hlen & Hst).
    { intros i Hi. unfold updated. cbn [trace]. rewrite length_app. simpl.
      replace (length (trace w) + 1 + i)%nat with (length (trace w) + S i)%nat by lia.
      apply Hnf. simpl. lia. }
    rewrite Hrun. exists s'. eexists (_ :: evs).
    unfold updated in *. cbn [durable sessions cache trace] in *.
    rewrite list_insert_insert_eq, <- app_assoc. split; [done|].
    split; [simpl; by rewrite Hlen|].
    rewrite Hst. by rewrite adjusted_cons.
Qed.

(** When the UPDATE of a line fails, the lines before it stay applied
    in the session, that line and the lines after it are not applied,
    and the caller gets the failure of the UPDATE; nothing is rolled
    back here. *)
Theorem update_stock_mysql_fails_midway (faults : nat -> option exn) (w : world) (h : nat)
    (s : session) (pre post : list order_item) (item : order_item) (operation : string)
    (f : Z -> Z -> Z) (e : exn) :
  sessions w !! h = Some s ->
  (operation = "+" /\ f = Z.add) \/ (operation = "-" /\ f = Z.sub) ->
  same_shape (pre ++ item :: post) = true ->
  (forall i, (i < length pre)%nat -> faults (length (trace w) + i)%nat = None) ->
  faults (length (trace w) + length pre)%nat = Some e ->
  let '(r, w') := update_stock_mysql faults h (pre ++ item :: post) operation w in
  r = Raise e /\
  durable w' = durable w /\
  forall pid, stock_seen w' h pid = adjusted f pre (stocks (session_view w s)) !! pid.
Proof.
  intros Hs Hop Hshape Hnf Hfail.
  assert (Hsql : sql_operator operation = Some f)
    by (destruct Hop as [[-> ->]|[-> ->]]; reflexivity).
  destruct (same_shape_first _ Hshape) as [Hnil|(first & H0 & Hall)]; [by destruct pre|].
  unfold update_stock_mysql, try_except. rewrite for_each_app.
  destruct (update_loop_exact_until faults h operation f (pre ++ item :: post) pre Hsql
              (ex_intro _ first (conj H0
                 (fun it Hit => Hall it (proj2 (elem_of_app _ _ _) (or_introl Hit)))))
              w s Hs Hnf)
    as (s1 & evs & Hrun & Hlen & Hst).
  rewrite Hrun. cbn [for_each]. unfold bind at 1. unfold bind at 1.
  set (w1 := World _ _ _ _).
  rewrite (mysql_item_same_shape (pre ++ item :: post) first item w1 H0)
    by (apply Hall, elem_of_app; right; left).
  unfold bind at 1.
  rewrite (execute_update_delta_fail faults h operation f _ _ w1 e Hsql)
    by (subst w1; cbn [trace]; by rewrite length_app, Hlen).
  unfold raise. split; [done|]. split; [done|].
  intros pid. unfold stock_seen, log. subst w1. cbn [sessions durable].
  rewrite list_lookup_insert_eq by (by eapply lookup_lt_Some).
  simpl. unfold session_view at 1. cbn [durable]. by rewrite Hst.
Qed.

(** ** The cache under failures *)

Lemma quiet_refl (w : world) : quiet w w.
Proof. by repeat split. Qed.

Lemma quiet_trans (w1 w2 w3 : world) : quiet w1 w2 -> quiet w2 w3 -> quiet w1 w3.
Proof. intros (? & ? & ?) (? & ? & ?). repeat split; congruence. Qed.

Lemma extern_quiet (faults : nat -> option exn) (c : call) (w : world) :
  quiet w (snd (extern faults c w)).
Proof. unfold extern. by repeat split. Qed.

Lemma current_stock_of_world (reply : option string) (w : world) :
  snd (current_stock_of reply w) = w.
Proof.
  unfold current_stock_of. destruct reply as [[|a text]|]; try done.
  by destruct (py_int _).
Qed.

Lemma redis_item_quiet (faults : nat -> option exn) (operation : string)
    (pipeline : list (string * list (string * string))) (item : order_item) (w : world) :
  quiet w (snd (redis_item faults operation pipeline item w)).
Proof.
  destruct item as [f|f]; unfold redis_item;
    cbv [bind lift ret attr_of subscript getattr_default dict_get redis_hget
         hasattr_product_id];
    pose proof (extern_quiet faults (HGet (stock_key (li_product_id f)) "quantity") w) as Hq;
    destruct (extern faults _ w) as [[[]|e] w1]; simpl in Hq; try exact Hq;
    match goal with
    | |- context [current_stock_of ?reply ?w0] =>
        pose proof (current_stock_of_world reply w0) as Hw;
        destruct (current_stock_of reply w0) as [[z|e] w2]; simpl in Hw; subst w2; exact Hq
    end.
Qed.

Lemma redis_loop_quiet (faults : nat -> option exn) (operation : string)
    (order_items : list order_item) :
  forall (pipeline : list (string * list (string * string))) (w : world),
  quiet w (snd (for_each_acc order_items pipeline (redis_item faults operation) w)).
Proof.
  induction order_items as [|item rest IH]; intros pipeline w; [apply quiet_refl|].
  cbn [for_each_acc]. unfold bind.
  pose proof (redis_item_quiet faults operation pipeline item w) as Hq.
  destruct (redis_item faults operation pipeline item w) as [[acc|e] w1]; simpl in Hq;
    [|exact Hq].
  eapply quiet_trans; [exact Hq|apply IH].
Qed.

Lemma pipeline_execute_outcome (faults : nat -> option exn)
    (cmds : list (string * list (string * string))) (w : world) :
  let '(r, w') := pipeline_execute faults cmds w in
  durable w' = durable w /\ sessions w' = sessions w /\
  (cache w' = cache w \/ (r = Ok tt /\ cache w' = apply_writes cmds (cache w))).
Proof.
  unfold pipeline_execute, bind, extern.
  destruct (faults (length (trace w))); simpl; repeat split; auto.
Qed.

(** The runs of [_populate_redis_from_mysql]: the SELECT fails; the
    join is empty; the pipeline fails; everything goes through. *)
Lemma populate_cases (faults : nat -> option exn) (w : world) :
  let h := length (sessions w) in
  let rows := join_rows (durable w) in
  let opened := [Event (GetSession h) None] in
  let closed_sessions := sessions w ++ [Session None [] true] in
  (exists e,
     _populate_redis_from_mysql faults w =
       (Raise e, World (durable w) closed_sessions (cache w)
                   (trace w ++ opened ++ [Event (Execute h SelectJoin) (Some e);
                                          Event (Close h) None]))) \/
  (rows = [] /\
   _populate_redis_from_mysql faults w =
     (Ok tt, World (durable w) closed_sessions (cache w)
               (trace w ++ opened ++ [Event (Execute h SelectJoin) None;
                                      Event (Close h) None]))) \/
  (exists e,
     rows ≠ [] /\
     _populate_redis_from_mysql faults w =
       (Raise e, World (durable w) closed_sessions (cache w)
                   (trace w ++ opened ++
                    [Event (Execute h SelectJoin) None;
                     Event (PipelineExecute (map row_write rows)) (Some e);
                     Event (Close h) None]))) \/
  (rows ≠ [] /\
   _populate_redis_from_mysql faults w =
     (Ok tt, World (durable w) closed_sessions
               (apply_writes (map row_write rows) (cache w))
               (trace w ++ opened ++
                [Event (Execute h SelectJoin) None;
                 Event (PipelineExecute (map row_write rows)) None;
                 Event (Close h) None]))).
Proof.
  destruct w as [d ss c t]. cbn [durable sessions cache trace]. cbv zeta.
  cbv [_populate_redis_from_mysql get_sqlalchemy_session try_finally try_except bind
       execute_select_join pipeline_execute with_session session_close local put_session
       ret raise].
  cbv [log set_sessions]. cbn [durable sessions cache trace].
  run_extern.
  - left. exists e. cbv [log set_sessions with_session].
    cbn [durable sessions cache trace]. rewrite lookup_snoc, insert_snoc.
    cbn [durable sessions cache trace]. by rewrite <- !app_assoc.
  - right. cbv [log set_sessions session_view default id set_cache].
    cbn [durable sessions cache trace txn added].
    rewrite lookup_snoc. cbn [txn added]. rewrite insert_snoc.
    destruct (join_rows d) as [|row rows] eqn:Hrows.
    + left. split; [done|]. cbn [length Nat.eqb durable sessions cache trace].
      rewrite lookup_snoc, insert_snoc. by rewrite <- !app_assoc.
    + right. cbn [length Nat.eqb]. rewrite pipeline_of_rows, app_nil_l.
      run_extern.
      * left. exists e. split; [done|]. cbv [log]. cbn [durable sessions cache trace].
        rewrite lookup_snoc, insert_snoc. by rewrite <- !app_assoc.
      * right. split; [done|]. cbv [log]. cbn [durable sessions cache trace].
        rewrite lookup_snoc, insert_snoc. by rewrite <- !app_assoc.
Qed.

Lemma foldl_insert_keeps (fields : list (string * string)) (field : string) :
  forall hash : gmap string string,
  is_Some (hash !! field) ->
  is_Some (foldl (fun hash fv => <[fv.1 := fv.2]> hash) hash fields !! field).
Proof.
  induction fields as [|[k v] fields IH]; intros hash Hsome; [done|].
  simpl. apply IH. rewrite lookup_insert_is_Some.
  destruct (decide (k = field)); auto.
Qed.

(** HSETs never remove a key or a field. *)
Lemma apply_writes_keeps (cmds : list (string * list (string * string))) (key field : string) :
  forall c : gmap string (gmap string string),
  (is_Some (c !! key) -> is_Some (apply_writes cmds c !! key)) /\
  (is_Some (c !! key ≫= fun hash => hash !! field) ->
   is_Some (apply_writes cmds c !! key ≫= fun hash => hash !! field)).
Proof.
  induction cmds as [|[k fields] cmds IH]; intros c; [done|].
  change (apply_writes ((k, fields) :: cmds) c)
    with (apply_writes cmds (hset_fields k fields c)).
  destruct (IH (hset_fields k fields c)) as [IHkey IHfield].
  destruct (decide (k = key)) as [->|Hne].
  - split; intros Hsome.
    + apply IHkey. rewrite hset_fields_lookup_eq. eauto.
    + apply IHfield. rewrite hset_fields_lookup_eq. simpl.
      apply foldl_insert_keeps.
      destruct (c !! key) as [hash|]; [exact Hsome|]. by destruct Hsome.
  - rewrite hset_fields_lookup_ne in IHkey, IHfield by done. by split.
Qed.

Lemma update_stock_redis_outcome (faults : nat -> option exn)
    (order_items : list order_item) (operation : string) (w : world) :
  let '(r, w') := update_stock_redis faults order_items operation w in
  cache_outcome w r w'.
Proof.
  destruct order_items as [|item rest].
  { simpl. repeat split; auto. }
  unfold update_stock_redis, get_redis_conn, scan_stock_keys, bind.
  pose proof (extern_quiet faults GetRedis w) as Hq1.
  destruct (extern faults GetRedis w) as [[[]|e] w1]; simpl in Hq1;
    [|destruct Hq1 as (Hd & Hs & Hc); repeat split; auto; congruence].
  pose proof (extern_quiet faults (ScanIter "stock:*") w1) as Hq2.
  destruct (extern faults (ScanIter "stock:*") w1) as [[[]|e] w2]; simpl in Hq2;
    pose proof (quiet_trans _ _ _ Hq1 Hq2) as Hq;
    [|destruct Hq as (Hd & Hs & Hc); repeat split; auto; congruence].
  destruct (filter _ _) as [|k l].
  - destruct Hq as (Hd & Hs & Hc).
    pose proof (populate_cases faults w2) as Hcases. cbv zeta in Hcases.
    assert (Hprefix : forall h s, sessions w !! h = Some s ->
              (sessions w2 ++ [Session None [] true]) !! h = Some s).
    { intros h s Hh. rewrite Hs. by apply lookup_app_l_Some. }
    destruct Hcases as [(e & ->)|[(_ & ->)|[(e & _ & ->)|(_ & ->)]]];
      (split; [exact Hd|]); (split; [exact Hprefix|]); cbn [cache].
    + by left.
    + by left.
    + by left.
    + right. split; [done|]. rewrite Hc. eauto.
  - pose proof (redis_loop_quiet faults operation (item :: rest) [] w2) as Hq3.
    destruct (for_each_acc (item :: rest) [] (redis_item faults operation) w2)
      as [[pipeline|e] w3]; simpl in Hq3;
      pose proof (quiet_trans _ _ _ Hq Hq3) as (Hd & Hs & Hc);
      [|repeat split; auto; congruence].
    pose proof (pipeline_execute_outcome faults pipeline w3) as Hout.
    destruct (pipeline_execute faults pipeline w3) as [r w4].
    destruct Hout as (Hd4 & Hs4 & Hc4).
    split; [congruence|]. split; [intros h s Hh; congruence|].
    destruct Hc4 as [Hc4|[-> Hc4]]; [left; congruence|].
    right. split; [done|]. exists pipeline. congruence.
Qed.

(** Whatever the batch, the operation and the failures,
    [update_stock_redis] leaves the committed data and every existing
    session as they are; when it raises, the cache is exactly as it was
    (all its writes travel in one pipeline, sent last); and it never
    removes a key or a field of the cache. *)
Theorem update_stock_redis_fails_cleanly (faults : nat -> option exn)
    (order_items : list order_item) (operation : string) (w : world) :
  let '(r, w') := update_stock_redis faults order_items operation w in
  durable w' = durable w /\
  (forall h s, sessions w !! h = Some s -> sessions w' !! h = Some s) /\
  (forall e, r = Raise e -> cache w' = cache w) /\
  (forall key, is_Some (cache w !! key) -> is_Some (cache w' !! key)) /\
  (forall key field,
     is_Some (cache w !! key ≫= fun hash => hash !! field) ->
     is_Some (cache w' !! key ≫= fun hash => hash !! field)).
Proof.
  pose proof (update_stock_redis_outcome faults order_items operation w) as Hout.
  destruct (update_stock_redis faults order_items operation w) as [r w'].
  destruct Hout as (Hd & Hs & Hc).
  split; [done|]. split; [done|].
  destruct Hc as [Hc|(-> & cmds & Hc)]; rewrite Hc.
  - repeat split; auto.
  - split; [discriminate|]. split.
    + intros key. apply (apply_writes_keeps cmds key "").
    + intros key field. apply apply_writes_keeps.
Qed.

(** In every run of [_populate_redis_from_mysql] the session it opens
    is closed by its last call and holds no transaction afterwards, and
    the committed data is not changed.  When it raises, the cache is as
    it was; when the SELECT is what fails, the caller gets that failure
    and no call is made on the cache. *)
Theorem populate_releases_session (faults : nat -> option exn) (w : world) :
  let h := length (sessions w) in
  let '(r, w') := _populate_redis_from_mysql faults w in
  let evs := new_events w w' in
  trace w' = trace w ++ evs /\
  sessions w' = sessions w ++ [Session None [] true] /\
  durable w' = durable w /\
  last evs = Some (Event (Close h) None) /\
  (forall e, r = Raise e -> cache w' = cache w) /\
  (forall e, Event (Execute h SelectJoin) (Some e) ∈ evs ->
     r = Raise e /\ forall ev, ev ∈ evs -> is_session_call (ev_call ev) = true).
Proof.
  pose proof (populate_cases faults w) as Hcases. cbv zeta in Hcases. cbv zeta.
  destruct Hcases as [(e & ->)|[(_ & ->)|[(e & _ & ->)|(_ & ->)]]];
    unfold new_events; cbn [durable sessions cache trace];
    rewrite drop_app_length; simpl app;
    (split; [done|]); (split; [done|]); (split; [done|]); (split; [done|]);
    (split; [try done; intros ? [=]|]);
    intros e0 Hin; in_cases Hin; try discriminate Hin.
  injection Hin as ->. split; [done|].
  intros ev Hev. in_cases Hev; by subst ev.
Qed.

(** ** Resynchronisation *)

(** The entry of a product of the join after the writes of a
    resynchronisation: the four fields come from the tables, any other
    field is the one the cache had. *)
Lemma resync_entry (d : database) (c : gmap string (gmap string string))
    (pid : Z) (p : product) (q : Z) :
  products d !! pid = Some p -> stocks d !! pid = Some q ->
  exists hash,
    apply_writes (map row_write (join_rows d)) c !! stock_key pid = Some hash /\
    hash !! "quantity" = Some (py_str q) /\
    hash !! "name" = Some (p_name p) /\
    hash !! "sku" = Some (p_sku p) /\
    hash !! "price" = Some (float_repr (p_price p)) /\
    forall field, field ∉ ["quantity"; "name"; "sku"; "price"] ->
      hash !! field = (c !! stock_key pid) ≫= (fun old => old !! field).
Proof.
  intros Hp Hq.
  assert (Hin : (pid, (p, q)) ∈ join_rows d) by (by apply elem_of_join_rows).
  apply list_elem_of_split in Hin as (pre & post & Hsplit).
  pose proof (join_rows_NoDup d) as Hnodup.
  rewrite Hsplit, fmap_app, fmap_cons in Hnodup.
  apply NoDup_app in Hnodup as (_ & Hpre & Hpost). simpl in Hpre.
  apply NoDup_cons in Hpost as [Hpost _].
  rewrite Hsplit, map_app. simpl map.
  change (row_write (pid, (p, q)))
    with (stock_key pid, entry_fields q (p_name p) (p_sku p) (p_price p)).
  destruct (apply_writes_last (map row_write pre) (map row_write post) (stock_key pid)
              q (p_name p) (p_sku p) (p_price p) c)
    as (hash & Heq & Hq' & Hn & Hs & Hp' & Hother).
  { intros Hin. by apply row_write_keys in Hin. }
  exists hash. repeat (split; [done|]).
  intros field Hfield. rewrite (Hother field Hfield).
  rewrite apply_writes_other; [done|].
  intros Hin. apply row_write_keys in Hin. apply (Hpre pid Hin). left.
Qed.

Lemma resync_other_key (d : database) (c : gmap string (gmap string string)) (key : string) :
  key ∉ (map row_write (join_rows d)).*1 ->
  apply_writes (map row_write (join_rows d)) c !! key = c !! key.
Proof. apply apply_writes_other. Qed.

Lemma resync_key_row (d : database) (key : string) :
  key ∈ (map row_write (join_rows d)).*1 ->
  exists pid p q, key = stock_key pid /\
    products d !! pid = Some p /\ stocks d !! pid = Some q.
Proof.
  intros Hin. apply list_elem_of_fmap in Hin as ([k fs] & Hk & Hin).
  apply list_elem_of_In, in_map_iff in Hin as ([pid [p q]] & Hrow & Hin).
  apply list_elem_of_In, elem_of_join_rows in Hin as [Hp Hq].
  unfold row_write in Hrow. injection Hrow as <- _. simpl in Hk.
  by exists pid, p, q.
Qed.

(** Writing the rows of the join a second time changes nothing. *)
Lemma resync_twice (d : database) (c : gmap string (gmap string string)) :
  apply_writes (map row_write (join_rows d)) (apply_writes (map row_write (join_rows d)) c)
  = apply_writes (map row_write (join_rows d)) c.
Proof.
  set (cmds := map row_write (join_rows d)).
  apply map_eq. intros key.
  destruct (decide (key ∈ cmds.*1)) as [Hin|Hnot].
  - apply resync_key_row in Hin as (pid & p & q & -> & Hp & Hq).
    destruct (resync_entry d c pid p q Hp Hq)
      as (hash1 & Heq1 & Hq1 & Hn1 & Hs1 & Hp1 & Ho1).
    destruct (resync_entry d (apply_writes cmds c) pid p q Hp Hq)
      as (hash2 & Heq2 & Hq2 & Hn2 & Hs2 & Hp2 & Ho2).
    fold cmds in Heq1, Heq2. rewrite Heq2, Heq1. f_equal.
    apply map_eq. intros field.
    destruct (decide (field ∈ ["quantity"; "name"; "sku"; "price"])) as [Hf|Hf].
    + in_cases Hf; subst field; congruence.
    + rewrite (Ho2 field Hf). fold cmds. rewrite Heq1. done.
  - subst cmds. by rewrite !resync_other_key.
Qed.

(** After [_populate_redis_from_mysql] with no failing call the cache
    agrees with the database on every product that has a StockRecord:
    its entry holds the quantity, name, sku and price of the tables,
    whatever the cache held before; keys of other products are left as
    they were (a stale entry is not removed); and running it a second
    time leaves the cache as the first run left it. *)
Theorem populate_agrees_and_is_idempotent (w : world) :
  let w1 := snd (_populate_redis_from_mysql no_faults w) in
  let w2 := snd (_populate_redis_from_mysql no_faults w1) in
  fst (_populate_redis_from_mysql no_faults w) = Ok tt /\
  (forall pid p q,
     products (durable w) !! pid = Some p -> stocks (durable w) !! pid = Some q ->
     cached w1 pid "quantity" = Some (py_str q) /\
     cached w1 pid "name" = Some (p_name p) /\
     cached w1 pid "sku" = Some (p_sku p) /\
     cached w1 pid "price" = Some (float_repr (p_price p))) /\
  (forall pid, stocks (durable w) !! pid = None ->
     cache w1 !! stock_key pid = cache w !! stock_key pid) /\
  cache w2 = cache w1.
Proof.
  cbv zeta. rewrite (populate_no_faults w). cbv zeta. cbn [fst snd].
  rewrite populate_no_faults. cbn [fst snd durable sessions cache trace].
  split; [done|]. split; [|split].
  - intros pid p q Hp Hq.
    destruct (resync_entry (durable w) (cache w) pid p q Hp Hq)
      as (hash & Heq & Hq' & Hn & Hs & Hp' & _).
    rewrite !cached_after_writes. cbn [cache]. rewrite Heq. simpl. done.
  - intros pid Hnone. apply resync_other_key. intros Hin.
    apply resync_key_row in Hin as (pid' & p & q & Hk & _ & Hq).
    apply stock_key_inj in Hk as <-. congruence.
  - apply resync_twice.
Qed.

(** ** An order on a cold cache *)

Lemma update_stock_redis_cold_run (w : world) (order_items : list order_item)
    (operation : string) :
  order_items ≠ [] -> cold (cache w) ->
  update_stock_redis no_faults order_items operation w =
    _populate_redis_from_mysql no_faults
      (log (Event (ScanIter "stock:*") None) (log (Event GetRedis None) w)).
Proof.
  intros Hne Hcold. destruct order_items as [|item rest]; [done|].
  unfold update_stock_redis, get_redis_conn, scan_stock_keys, bind.
  rewrite !extern_no_faults. cbn [log cache].
  by rewrite (scan_cold _ Hcold).
Qed.

(** With a cold cache, an order operation with no failing call leaves
    the two stores in agreement on every product that has a StockRecord,
    also when the order names a product on several lines: the database
    has applied the totals of the order, and the cache, rebuilt after
    the commit, holds the committed quantities. *)
Theorem order_operation_cold_agrees (w : world) (h : nat) (s : session)
    (order_items : list order_item) (operation : string) (f : Z -> Z -> Z) :
  sessions w !! h = Some s -> txn s = None -> added s = [] ->
  (operation = "+" /\ f = Z.add) \/ (operation = "-" /\ f = Z.sub) ->
  same_shape order_items = true ->
  order_items ≠ [] ->
  cold (cache w) ->
  let '(r, w') := order_operation no_faults h order_items operation w in
  r = Ok tt /\
  (forall pid,
     stocks (durable w') !! pid
       = (fun q => f q (ordered order_items pid)) <$> stocks (durable w) !! pid) /\
  forall pid p q,
    products (durable w) !! pid = Some p -> stocks (durable w') !! pid = Some q ->
    cached w' pid "quantity" = Some (py_str q).
Proof.
  intros Hs Htxn Hadd Hop Hshape Hne Hcold.
  destruct (update_stock_mysql_run w h s order_items operation f Hs Hop Hshape)
    as (s1 & evs & Hrun & Hadd1 & Hst & Hpr).
  unfold order_operation. unfold bind at 1. rewrite Hrun. unfold bind at 1.
  assert (Hlt : (h < length (sessions w))%nat) by (by eapply lookup_lt_Some).
  rewrite (session_commit_no_faults h s1);
    [|cbn [sessions]; by apply list_lookup_insert_eq|by rewrite Hadd1, Hadd].
  cbn [durable sessions cache trace]. unfold session_view at 1. cbn [durable].
  set (d2 := default (durable w) (txn s1)) in *.
  assert (Hview : session_view w s = durable w) by (unfold session_view; by rewrite Htxn).
  rewrite Hview in Hst, Hpr.
  set (w2 := World d2 _ _ _).
  rewrite (update_stock_redis_cold_run w2 order_items operation Hne Hcold).
  rewrite populate_no_faults. cbv zeta. subst w2. cbn [log durable sessions cache trace].
  split; [done|]. split.
  - intros pid. rewrite Hst. by apply (adjusted_lookup operation).
  - intros pid p q Hp Hq. rewrite <- Hpr in Hp.
    destruct (resync_entry d2 (cache w) pid p q Hp Hq) as (hash & Heq & Hq' & _).
    rewrite cached_after_writes. cbn [cache]. rewrite Heq. simpl. done.
Qed.

(** ** A cached quantity that is no number *)




(** ** [set_stock_for_product] when the cache fails *)

(** When a call on the cache raises in [set_stock_for_product] (the
    connection or the HSET), the caller gets that failure, the rollback
    and the close follow, and the cache is as it was; but on the insert
    path the new row was committed before the cache was reached, and it
    stays: the database holds the quantity and the cache does not. *)
Theorem set_stock_for_product_cache_failure (faults : nat -> option exn) (w : world)
    (pid qty : Z) :
  let h := length (sessions w) in
  let '(r, w') := set_stock_for_product faults pid qty w in
  let evs := new_events w w' in
  forall c e, Event c (Some e) ∈ evs -> is_session_call c = false ->
    r = Raise e /\
    cache w' = cache w /\
    (stocks (durable w) !! pid = None ->
       stocks (durable w') !! pid = Some qty /\ Event (Commit h) None ∈ evs) /\
    (is_Some (stocks (durable w) !! pid) -> durable w' = durable w) /\
    exists pre,
      evs = pre ++ [Event c (Some e); Event (Rollback h) None; Event (Close h) None].
Proof.
  destruct w as [d ss c t]. intros h. subst h. cbn [durable sessions cache].
  destruct (stocks d !! pid) as [q|] eqn:Hrow;
    run; new_events_list;
    intros c0 e0 Hin Hcache; in_cases Hin; try discriminate Hin;
    injection Hin as -> ->; try discriminate Hcache;
    (split; [done|split; [done|split; [|split]]]);
    try (intros [=]); try (intros [? [=]]); try done;
    try (split; [by rewrite ?stocks_set_stocks, lookup_insert_eq|set_solver]);
    first [by eexists [_; _] | by eexists [_; _; _] | by eexists [_; _; _; _; _]
          | by eexists [_; _; _; _; _; _]].
Qed.

(** ** What [set_stock_for_product] leaves alone *)

Lemma hset_quantity_frame (c : gmap string (gmap string string)) (pid : Z) (text : string) :
  let c' := hset_fields (stock_key pid) [("quantity", text)] c in
  (forall key, key ≠ stock_key pid -> c' !! key = c !! key) /\
  (forall field, field ≠ "quantity" ->
     (c' !! stock_key pid ≫= fun hash => hash !! field)
     = (c !! stock_key pid ≫= fun hash => hash !! field)) /\
  (c' !! stock_key pid ≫= fun hash => hash !! "quantity") = Some text.
Proof.
  cbv zeta. split; [|split].
  - intros key Hkey. by apply hset_fields_lookup_ne.
  - intros field Hfield. rewrite hset_fields_one_lookup.
    rewrite decide_False; [done|]. intros [_ ?]. congruence.
  - rewrite hset_fields_one_lookup. by rewrite decide_True.
Qed.

(** Whatever fails, [set_stock_for_product] changes at most the row of
    its product, which it can only create, and the [quantity] field of
    that product's hash: the products table, the rows of other products,
    the other keys of the cache, the other fields of the hash (name,
    sku, price) and the sessions that exist are as before. *)
Theorem set_stock_for_product_frame (faults : nat -> option exn) (w : world)
    (pid qty : Z) :
  let '(r, w') := set_stock_for_product faults pid qty w in
  products (durable w') = products (durable w) /\
  (forall pid', pid' ≠ pid -> stocks (durable w') !! pid' = stocks (durable w) !! pid') /\
  (stocks (durable w') !! pid = stocks (durable w) !! pid \/
   (stocks (durable w) !! pid = None /\ stocks (durable w') !! pid = Some qty)) /\
  (forall key, key ≠ stock_key pid -> cache w' !! key = cache w !! key) /\
  (forall field, field ≠ "quantity" -> cached w' pid field = cached w pid field) /\
  (cached w' pid "quantity" = cached w pid "quantity" \/
   ((exists msg, r = Ok msg) /\ cached w' pid "quantity" = Some (py_str qty))) /\
  (forall h s, sessions w !! h = Some s -> sessions w' !! h = Some s).
Proof.
  destruct w as [d ss c t].
  pose proof (hset_quantity_frame c pid (py_str qty)) as (Hkeys & Hfields & Hquantity).
  assert (Hsess : forall h s, ss !! h = Some s ->
            (ss ++ [Session None [] true]) !! h = Some s)
    by (intros h s Hh; by apply lookup_app_l_Some).
  cbn [durable sessions cache].
  destruct (stocks d !! pid) as [q|] eqn:Hrow;
    run; unfold cached; cbn [durable sessions cache];
    rewrite ?stocks_set_stocks;
    (split; [done|]);
    (split; [try done; intros pid' Hne; by rewrite lookup_insert_ne|]);
    (split; [first [by left | right; split; [done|by rewrite lookup_insert_eq]]|]);
    (split; [try done; exact Hkeys|]);
    (split; [try done; exact Hfields|]);
    (split; [first [by left | right; split; [by eexists|exact Hquantity]]|]);
    exact Hsess.
Qed.

(** ** [set_stock_for_product] followed by other calls *)

(** [set_stock_for_product] when no call fails. *)
Lemma set_stock_for_product_run (w : world) (pid qty : Z) :
  exists evs,
    set_stock_for_product no_faults pid qty w =
      (Ok (match stocks (durable w) !! pid with
           | Some _ => "rows updated: 1"
           | None => "rows added: " +:+ py_str pid
           end),
       World (after_set_stock (durable w) pid qty)
             (sessions w ++ [Session None [] true])
             (hset_fields (stock_key pid) [("quantity", py_str qty)] (cache w))
             (trace w ++ evs)).
Proof.
  destruct w as [d ss c t]. unfold after_set_stock. cbn [durable sessions cache trace].
  destruct (stocks d !! pid) as [q|] eqn:Hrow; run; rewrite <- ?app_assoc;
    eexists; reflexivity.
Qed.

Lemma py_str_not_empty (z : Z) : py_str z ≠ "".
Proof.
  intros Hempty. pose proof (py_int_str z) as H. rewrite Hempty in H. discriminate.
Qed.

(** A quantity written as [str(n)] is read back as [n]. *)
Lemma current_quantity_written (c : gmap string (gmap string string)) (pid z : Z) :
  (c !! stock_key pid ≫= fun hash => hash !! "quantity") = Some (py_str z) ->
  current_quantity c pid = Some z.
Proof.
  intros H. unfold current_quantity. rewrite H.
  pose proof (py_str_not_empty z) as Hne.
  destruct (py_str z) as [|a text] eqn:Htext; [done|].
  rewrite <- Htext. apply py_int_str.
Qed.

Lemma set_stock_cache_quantity (c : gmap string (gmap string string)) (pid qty : Z) :
  let c' := hset_fields (stock_key pid) [("quantity", py_str qty)] c in
  warm c' /\ is_Some (c' !! stock_key pid) /\ current_quantity c' pid = Some qty.
Proof.
  cbv zeta.
  assert (Hkey : is_Some (hset_fields (stock_key pid) [("quantity", py_str qty)] c
                          !! stock_key pid))
    by (rewrite hset_fields_lookup_eq; eauto).
  split; [|split; [done|]].
  - exists (stock_key pid). split; [apply stock_key_matches|done].
  - apply current_quantity_written. rewrite hset_fields_one_lookup. by rewrite decide_True.
Qed.

(** Setting the stock of a product that has no row twice, with no
    failing call: the first call inserts and commits, the second finds
    the row, reports one updated row and writes the cache, but its
    UPDATE is dropped with the session; the database keeps the first
    quantity and the cache holds the second. *)
Theorem set_stock_for_product_twice (w : world) (pid first_qty second_qty : Z) :
  stocks (durable w) !! pid = None ->
  let '(r1, w1) := set_stock_for_product no_faults pid first_qty w in
  let '(r2, w2) := set_stock_for_product no_faults pid second_qty w1 in
  r1 = Ok ("rows added: " +:+ py_str pid) /\
  r2 = Ok "rows updated: 1" /\
  stocks (durable w2) !! pid = Some first_qty /\
  cached w2 pid "quantity" = Some (py_str second_qty).
Proof.
  intros Hrow.
  destruct (set_stock_for_product_run w pid first_qty) as [evs1 ->].
  rewrite Hrow. set (w1 := World _ _ _ _).
  assert (Hrow1 : stocks (durable w1) !! pid = Some first_qty).
  { subst w1. cbn [durable]. unfold after_set_stock. rewrite Hrow.
    rewrite stocks_set_stocks. apply lookup_insert_eq. }
  destruct (set_stock_for_product_run w1 pid second_qty) as [evs2 ->].
  rewrite Hrow1. split; [done|]. split; [done|]. cbn [durable cache].
  split.
  - unfold after_set_stock. by rewrite Hrow1.
  - rewrite cached_after_writes. cbn [cache]. rewrite hset_fields_one_lookup.
    by rewrite decide_True.
Qed.

(** After [set_stock_for_product], an update of the cache for an order
    of the same product, with no failing call, takes the delta path (it
    opens no session, so it does not resynchronise) and starts from the
    quantity just written: the cache holds that quantity plus or minus
    the units of the order. *)
Theorem set_stock_then_update_cache (w : world) (pid qty : Z) (item : order_item)
    (operation : string) :
  li_product_id (fields_of item) = pid ->
  let w1 := snd (set_stock_for_product no_faults pid qty w) in
  let '(r, w2) := update_stock_redis no_faults [item] operation w1 in
  r = Ok tt /\
  sessions w2 = sessions w1 /\
  cached w2 pid "quantity" =
    Some (py_str (if String.eqb operation "+" then qty + li_quantity (fields_of item)
                  else qty - li_quantity (fields_of item))).
Proof.
  intros Hpid. destruct (set_stock_for_product_run w pid qty) as [evs1 ->].
  cbv zeta. cbn [snd]. set (w1 := World _ _ _ _).
  destruct (set_stock_cache_quantity (cache w) pid qty) as (Hwarm & Hentry & Hcur).
  destruct (update_stock_redis_warm_run w1 [item] operation) as (evs2 & ->).
  - discriminate.
  - exact Hwarm.
  - intros line Hline. apply list_elem_of_singleton in Hline as ->.
    rewrite Hpid. subst w1. cbn [cache]. rewrite Hcur. eauto.
  - split; [done|]. split; [done|].
    destruct (expected_writes_last (cache w1) operation [] [] item) as (hash & Heq & Hq & _).
    { intros later Hlater. by apply elem_of_nil in Hlater. }
    rewrite Hpid in Heq, Hq. rewrite cached_after_writes. cbn [cache].
    change ([] ++ [item]) with [item] in Heq. rewrite Heq. simpl. rewrite Hq.
    subst w1. cbn [cache]. by rewrite Hcur.
Qed.

(** Once [set_stock_for_product] has written one key, the cache counts
    as warm: an update for an order of another product, one the cache
    has no entry for, does not resynchronise and starts from zero,
    whatever quantity the database holds for that product. *)
Theorem update_cache_of_uncached_product (w : world) (pid qty : Z) (item : order_item)
    (operation : string) :
  li_product_id (fields_of item) ≠ pid ->
  cache w !! stock_key (li_product_id (fields_of item)) = None ->
  let w1 := snd (set_stock_for_product no_faults pid qty w) in
  let '(r, w2) := update_stock_redis no_faults [item] operation w1 in
  r = Ok tt /\
  sessions w2 = sessions w1 /\
  cached w2 (li_product_id (fields_of item)) "quantity" =
    Some (py_str (if String.eqb operation "+" then 0 + li_quantity (fields_of item)
                  else 0 - li_quantity (fields_of item))).
Proof.
  intros Hpid Hnone. destruct (set_stock_for_product_run w pid qty) as [evs1 ->].
  cbv zeta. cbn [snd]. set (w1 := World _ _ _ _).
  destruct (set_stock_cache_quantity (cache w) pid qty) as (Hwarm & _ & _).
  assert (Hcur : current_quantity (cache w1) (li_product_id (fields_of item)) = Some 0).
  { subst w1. cbn [cache]. unfold current_quantity.
    rewrite hset_fields_lookup_ne by (intros Hk; by apply stock_key_inj in Hk).
    by rewrite Hnone. }
  destruct (update_stock_redis_warm_run w1 [item] operation) as (evs2 & ->).
  - discriminate.
  - exact Hwarm.
  - intros line Hline. apply list_elem_of_singleton in Hline as ->. rewrite Hcur. eauto.
  - split; [done|]. split; [done|].
    destruct (expected_writes_last (cache w1) operation [] [] item) as (hash & Heq & Hq & _).
    { intros later Hlater. by apply elem_of_nil in Hlater. }
    rewrite cached_after_writes. cbn [cache].
    change ([] ++ [item]) with [item] in Heq. rewrite Heq. simpl. rewrite Hq.
    by rewrite Hcur.
Qed.

(** ** The flow of the test *)

(** An order of one line on a product on which the two stores agree,
    in a session of its own and with no failing call, moves both stores
    by the units of the order. *)
Lemma order_in_new_session_run (w : world) (pid units Q : Z) (operation : string)
    (f : Z -> Z -> Z) :
  (operation = "+" /\ f = Z.add) \/ (operation = "-" /\ f = Z.sub) ->
  both_hold w pid Q ->
  let '(r, w') := order_in_new_session no_faults pid units operation w in
  r = Ok tt /\ both_hold w' pid (f Q units).
Proof.
  intros Hop [Hdb Hcache].
  unfold order_in_new_session. unfold bind at 1. cbn [get_sqlalchemy_session].
  unfold get_sqlalchemy_session.
  set (w0 := log _ _).
  assert (Hcache0 : cache w0 = cache w) by done.
  assert (Hdur0 : durable w0 = durable w) by done.
  assert (Hentry : (cache w !! stock_key pid ≫= fun hash => hash !! "quantity")
                   = Some (py_str Q)) by exact Hcache.
  pose proof (order_operation_stores w0 (length (sessions w)) (Session None [] false)
                [] [] (MapItem (line pid units)) operation f Q) as H.
  cbv zeta in H. change ([] ++ [MapItem (line pid units)]) with [MapItem (line pid units)] in H.
  simpl fields_of in H. simpl li_product_id in H. simpl li_quantity in H.
  destruct (order_operation no_faults (length (sessions w)) [MapItem (line pid units)]
              operation w0) as [r w'].
  destruct H as (Hr & Hd & Hc).
  - subst w0. cbn [log set_sessions sessions]. apply lookup_snoc.
  - reflexivity.
  - reflexivity.
  - exact Hop.
  - reflexivity.
  - intros later Hlater. by apply elem_of_nil in Hlater.
  - intros l Hl. apply list_elem_of_singleton in Hl as ->.
    change (is_Some (current_quantity (cache w0) pid)).
    rewrite Hcache0, (current_quantity_written _ _ _ Hentry). eauto.
  - rewrite Hcache0. destruct (cache w !! stock_key pid); [eauto|discriminate].
  - rewrite Hcache0. by apply current_quantity_written.
  - split; [done|]. split; [|done].
    rewrite Hd, Hdur0.
    apply (adjusted_once f [] [] (MapItem (line pid units)) (stocks (durable w)) Q);
      [|exact Hdb].
    intros other Hother. by apply elem_of_nil in Hother.
Qed.

(** The scenario of [test_stock_flow], for any product that has no
    StockRecord yet and any quantities, when no call fails: after the
    stock is set both stores hold the quantity, after the order both
    hold it minus the units ordered, after the order is deleted both
    hold it again. *)
Theorem stock_flow_keeps_stores_equal (w : world) (pid qty units : Z) :
  stocks (durable w) !! pid = None ->
  let w1 := snd (set_stock_for_product no_faults pid qty w) in
  let w2 := snd (order_in_new_session no_faults pid units "-" w1) in
  let w3 := snd (order_in_new_session no_faults pid units "+" w2) in
  stock_flow no_faults pid qty units w = (Ok tt, w3) /\
  both_hold w1 pid qty /\
  both_hold w2 pid (qty - units) /\
  both_hold w3 pid qty.
Proof.
  intros Hrow. cbv zeta. unfold stock_flow. unfold bind at 1.
  destruct (set_stock_for_product_run w pid qty) as [evs1 Hrun1].
  rewrite Hrun1. cbn [snd]. rewrite Hrow in *. set (w1 := World _ _ _ _).
  assert (H1 : both_hold w1 pid qty).
  { split.
    - subst w1. cbn [durable]. unfold after_set_stock. rewrite Hrow.
      rewrite stocks_set_stocks. apply lookup_insert_eq.
    - rewrite cached_after_writes. subst w1. cbn [cache].
      rewrite hset_fields_one_lookup. by rewrite decide_True. }
  unfold bind at 1.
  pose proof (order_in_new_session_run w1 pid units qty "-" Z.sub
                (or_intror (conj eq_refl eq_refl)) H1) as Hout.
  destruct (order_in_new_session no_faults pid units "-" w1) as [r2 w2].
  destruct Hout as [-> H2]. cbn [snd].
  pose proof (order_in_new_session_run w2 pid units (qty - units) "+" Z.add
                (or_introl (conj eq_refl eq_refl)) H2) as Hin.
  destruct (order_in_new_session no_faults pid units "+" w2) as [r3 w3].
  destruct Hin as [-> H3]. cbn [snd].
  replace (qty - units + units) with qty in H3 by lia.
  done.
Qed.

(** ** The further theorems at concrete inputs *)

(** [update_stock_mysql_applies_totals] on an order that names
    product 1 twice. *)
Lemma update_stock_mysql_applies_totals_witness :
  let order_items := [MapItem (line 1 2); MapItem (line 2 1); MapItem (line 1 3)] in
  let '(r, w') := update_stock_mysql no_faults 0 order_items "-" two_products in
  r = Ok tt /\
  forall pid,
    stock_seen w' 0 pid
      = (fun q => q - ordered order_items pid) <$> stock_seen two_products 0 pid.
Proof.
  apply (update_stock_mysql_applies_totals two_products 0 (Session None [] false)
           [MapItem (line 1 2); MapItem (line 2 1); MapItem (line 1 3)] "-" Z.sub).
  - reflexivity.
  - right. split; reflexivity.
  - reflexivity.
Defined.

(** [update_stock_mysql_order_of_lines] on two lines and the same two
    lines swapped. *)
Lemma update_stock_mysql_order_of_lines_witness :
  stock_seen (snd (update_stock_mysql no_faults 0
                     [MapItem (line 1 2); MapItem (line 2 1)] "-" two_products)) 0 1 =
  stock_seen (snd (update_stock_mysql no_faults 0
                     [MapItem (line 2 1); MapItem (line 1 2)] "-" two_products)) 0 1 /\
  stock_seen (snd (update_stock_mysql no_faults 0
                     [MapItem (line 1 2); MapItem (line 2 1)] "-" two_products)) 0 2 =
  stock_seen (snd (update_stock_mysql no_faults 0
                     [MapItem (line 2 1); MapItem (line 1 2)] "-" two_products)) 0 2.
Proof.
  split;
    apply (update_stock_mysql_order_of_lines two_products 0 (Session None [] false)
             [MapItem (line 1 2); MapItem (line 2 1)]
             [MapItem (line 2 1); MapItem (line 1 2)] "-");
    first [reflexivity | right; reflexivity | apply perm_swap].
Defined.

(** [check_out_check_in_batch] on an order that names product 1
    twice. *)
Lemma check_out_check_in_batch_witness :
  let order_items := [MapItem (line 1 2); MapItem (line 1 3)] in
  let '(r1, w1) := check_out_items_from_stock no_faults 0 order_items two_products in
  let '(r2, w2) := check_in_items_to_stock no_faults 0 order_items w1 in
  let '(r3, w3) := check_in_items_to_stock no_faults 0 order_items two_products in
  let '(r4, w4) := check_out_items_from_stock no_faults 0 order_items w3 in
  r1 = Ok tt /\ r2 = Ok tt /\ r3 = Ok tt /\ r4 = Ok tt /\
  forall pid, stock_seen w2 0 pid = stock_seen two_products 0 pid /\
              stock_seen w4 0 pid = stock_seen two_products 0 pid.
Proof.
  apply (check_out_check_in_batch two_products 0 (Session None [] false)
           [MapItem (line 1 2); MapItem (line 1 3)]).
  - reflexivity.
  - reflexivity.
Defined.

(** [update_stock_mysql_fails_midway] when the UPDATE of the second of
    two lines fails: product 1 is adjusted, product 2 is not. *)
Lemma update_stock_mysql_fails_midway_witness :
  let '(r, w') :=
    update_stock_mysql second_call_fails 0 ([MapItem (line 1 2)] ++ MapItem (line 2 3) :: [])
      "-" two_products in
  r = Raise (DriverError "connection lost") /\
  durable w' = durable two_products /\
  forall pid,
    stock_seen w' 0 pid
      = adjusted Z.sub [MapItem (line 1 2)]
          (stocks (session_view two_products (Session None [] false))) !! pid.
Proof.
  apply (update_stock_mysql_fails_midway second_call_fails two_products 0
           (Session None [] false) [MapItem (line 1 2)] [] (MapItem (line 2 3)) "-" Z.sub
           (DriverError "connection lost")).
  - reflexivity.
  - right. split; reflexivity.
  - reflexivity.
  - intros i Hi. simpl in Hi. assert (i = 0%nat) as -> by lia. reflexivity.
  - reflexivity.
Defined.

(** [order_operation_cold_agrees] on [two_products], whose cache is
    empty, for an order that names product 1 twice: 5 units in both
    stores. *)
Lemma order_operation_cold_agrees_witness :
  let order_items := [MapItem (line 1 2); MapItem (line 1 3)] in
  stocks (durable (snd (order_operation no_faults 0 order_items "-" two_products))) !! 1
    = Some 5 /\
  cached (snd (order_operation no_faults 0 order_items "-" two_products)) 1 "quantity"
    = Some (py_str 5).
Proof.
  pose proof (order_operation_cold_agrees two_products 0 (Session None [] false)
                [MapItem (line 1 2); MapItem (line 1 3)] "-" Z.sub) as H.
  cbv zeta.
  destruct (order_operation no_faults 0 [MapItem (line 1 2); MapItem (line 1 3)] "-"
              two_products) as [r w'].
  destruct H as (_ & Hdb & Hcache).
  - reflexivity.
  - reflexivity.
  - reflexivity.
  - right. split; reflexivity.
  - reflexivity.
  - discriminate.
  - exact two_products_cold.
  - assert (Hrow : stocks (durable w') !! 1 = Some 5).
    { rewrite Hdb. vm_compute. reflexivity. }
    split; [exact Hrow|].
    apply (Hcache 1 (Product "Some Item" "12345" (PyFloat "99.9")) 5).
    + vm_compute; reflexivity.
    + exact Hrow.
Defined.


(** [set_stock_for_product_cache_failure] on product 3, which
    [two_products] does not stock, when the HSET fails: the row is
    committed, the caller gets the failure. *)
Lemma set_stock_for_product_cache_failure_witness :
  fst (set_stock_for_product seventh_call_fails 3 7 two_products)
    = Raise (DriverError "cache down") /\
  stocks (durable (snd (set_stock_for_product seventh_call_fails 3 7 two_products))) !! 3
    = Some 7 /\
  cache (snd (set_stock_for_product seventh_call_fails 3 7 two_products))
    = cache two_products.
Proof.
  pose proof (set_stock_for_product_cache_failure seventh_call_fails two_products 3 7) as H.
  cbv zeta in H.
  destruct (set_stock_for_product seventh_call_fails 3 7 two_products) as [r w'] eqn:Hrun.
  destruct (H (HSet (stock_key 3) "quantity" (py_str 7)) (DriverError "cache down"))
    as (Hr & Hc & Hrow & _).
  - vm_compute in Hrun. injection Hrun as _ <-. vm_compute. do 6 right. left.
  - reflexivity.
  - destruct Hrow as [Hrow _]; [vm_compute; reflexivity|].
    split; [exact Hr|]. split; [exact Hrow|exact Hc].
Defined.

(** [set_stock_for_product_twice] on product 3: 7 then 9. *)
Lemma set_stock_for_product_twice_witness :
  let '(r1, w1) := set_stock_for_product no_faults 3 7 two_products in
  let '(r2, w2) := set_stock_for_product no_faults 3 9 w1 in
  r1 = Ok ("rows added: " +:+ py_str 3) /\
  r2 = Ok "rows updated: 1" /\
  stocks (durable w2) !! 3 = Some 7 /\
  cached w2 3 "quantity" = Some (py_str 9).
Proof.
  apply (set_stock_for_product_twice two_products 3 7 9).
  vm_compute; reflexivity.
Defined.

(** [set_stock_then_update_cache] on product 3 of an empty cache: 7
    set, 2 checked out. *)
Lemma set_stock_then_update_cache_witness :
  let w1 := snd (set_stock_for_product no_faults 3 7 two_products) in
  let '(r, w2) := update_stock_redis no_faults [MapItem (line 3 2)] "-" w1 in
  r = Ok tt /\
  sessions w2 = sessions w1 /\
  cached w2 3 "quantity" = Some (py_str (7 - 2)).
Proof.
  apply (set_stock_then_update_cache two_products 3 7 (MapItem (line 3 2)) "-").
  reflexivity.
Defined.

(** [update_cache_of_uncached_product]: the stock of product 3 is set,
    then 2 units of product 1 are checked out; the database holds 10
    for product 1, the cache ends at -2. *)
Lemma update_cache_of_uncached_product_witness :
  let w1 := snd (set_stock_for_product no_faults 3 7 two_products) in
  let '(r, w2) := update_stock_redis no_faults [MapItem (line 1 2)] "-" w1 in
  r = Ok tt /\
  sessions w2 = sessions w1 /\
  cached w2 1 "quantity" = Some (py_str (0 - 2)).
Proof.
  apply (update_cache_of_uncached_product two_products 3 7 (MapItem (line 1 2)) "-").
  - discriminate.
  - apply lookup_empty.
Defined.

(** [stock_flow_keeps_stores_equal] with the numbers of the test: 5
    units set, 2 ordered. *)
Lemma stock_flow_keeps_stores_equal_witness :
  let w1 := snd (set_stock_for_product no_faults 3 5 two_products) in
  let w2 := snd (order_in_new_session no_faults 3 2 "-" w1) in
  let w3 := snd (order_in_new_session no_faults 3 2 "+" w2) in
  stock_flow no_faults 3 5 2 two_products = (Ok tt, w3) /\
  both_hold w1 3 5 /\
  both_hold w2 3 (5 - 2) /\
  both_hold w3 3 5.
Proof.
  apply (stock_flow_keeps_stores_equal two_products 3 5 2).
  vm_compute; reflexivity.
Defined.
